(** * The search query pipeline of the i2e search backend

    A shallow embedding of
    - [backend/api/ai-service.js]   (understandQuery, generateOverview,
      rankResults, buildElasticsearchQuery),
    - [backend/api/ai-cache.js]     (the four TTL caches and their keys),
    - [backend/api/elasticsearch-init.js] (the [GET /search] and
      [GET /suggest] handlers, [getCleanApiKey]),
    - the results page of the frontend (what it keeps of a response) and its
      pagination cache ([frontend/lib/cache.ts]),
    and the properties of the pipeline proved or refuted on it.

    JavaScript strings are sequences of UTF-16 code units; they are modelled
    by [string], i.e. the code units below 256.  Numbers that the code only
    uses as integers (boosts, pages, timestamps in milliseconds) are [Z]. *)

From Stdlib Require Import ZArith Ascii String Lia.
From stdpp Require Import gmap strings list fin_maps pretty.

Local Open Scope Z_scope.

(** ** JavaScript string primitives used by the pipeline *)

Module JS.

(** [\s] and the characters removed by [trim], among the code units below
    256: TAB, LF, VT, FF, CR, SPACE and NBSP. *)
Definition isWhiteSpace (c : ascii) : bool :=
  let n := nat_of_ascii c in
  ((9 <=? n)%nat && (n <=? 13)%nat) || (n =? 32)%nat || (n =? 160)%nat.

Fixpoint trimStart (s : string) : string :=
  match s with
  | EmptyString => EmptyString
  | String c s' => if isWhiteSpace c then trimStart s' else s
  end.

Fixpoint trimEnd (s : string) : string :=
  match s with
  | EmptyString => EmptyString
  | String c s' =>
      match trimEnd s' with
      | EmptyString => if isWhiteSpace c then EmptyString else String c EmptyString
      | t => String c t
      end
  end.

(** [s.trim()] *)
Definition trim (s : string) : string := trimEnd (trimStart s).

Definition lowerChar (c : ascii) : ascii :=
  let n := nat_of_ascii c in
  if ((65 <=? n)%nat && (n <=? 90)%nat)
     || ((192 <=? n)%nat && (n <=? 222)%nat && negb (n =? 215)%nat)
  then ascii_of_nat (n + 32) else c.

(** [s.toLowerCase()] *)
Fixpoint toLowerCase (s : string) : string :=
  match s with
  | EmptyString => EmptyString
  | String c s' => String (lowerChar c) (toLowerCase s')
  end.

(** The scanner behind [s.split(/\s+/)]: [cur] is the piece being read,
    [in_run] tells that the previous character was white space.  A
    separator at the start or at the end yields an empty piece, as in
    JavaScript. *)
Fixpoint split_go (s cur : string) (in_run : bool) : list string :=
  match s with
  | EmptyString => [cur]
  | String c s' =>
      if isWhiteSpace c then
        if in_run then split_go s' cur true
        else cur :: split_go s' EmptyString true
      else split_go s' (cur +:+ String c EmptyString) false
  end.

(** [s.split(/\s+/)] *)
Definition split_ws (s : string) : list string := split_go s EmptyString false.

(** The scanner behind [s.replace(/\s+/g, r)]. *)
Fixpoint replace_go (r s : string) (in_run : bool) : string :=
  match s with
  | EmptyString => EmptyString
  | String c s' =>
      if isWhiteSpace c then
        if in_run then replace_go r s' true else r +:+ replace_go r s' true
      else String c (replace_go r s' false)
  end.

(** [s.replace(/\s+/g, r)] *)
Definition replace_ws (r s : string) : string := replace_go r s false.

(** [l.join(sep)] *)
Fixpoint join (sep : string) (l : list string) : string :=
  match l with
  | [] => EmptyString
  | [x] => x
  | x :: l' => x +:+ sep +:+ join sep l'
  end.

(** Truthiness of a string: only [''] is falsy. *)
Definition nonEmpty (s : string) : bool :=
  match s with EmptyString => false | _ => true end.

(** Truthiness of a value that is a string, [null] or [undefined]. *)
Definition truthy (o : option string) : bool :=
  match o with Some s => nonEmpty s | None => false end.

(** [a || b] on such values. *)
Definition or (a b : option string) : option string :=
  if truthy a then a else b.

(** [l.slice(0, k)]: a negative [k] counts from the end. *)
Definition slice0 {A} (k : Z) (l : list A) : list A :=
  if 0 <=? k then take (Z.to_nat k) l
  else take (Z.to_nat (Z.of_nat (length l) + k)) l.

End JS.

(** ** Data model *)

(** A result as mapped from an index hit in [GET /search].  The float
    [score] is carried along by the code and never inspected; it is left
    out. *)
Record SearchResult := {
  r_id : string;
  r_url : string;
  r_title : string;
  r_description : string;
  r_content : string;
  r_page_description : string;
  r_category : string;
  r_last_modified : string
}.

(** The record returned by [understandQuery].  [didYouMean] is absent from
    the record of the blank query, [null] or a string otherwise: both absent
    and [null] are [None]; the handler only reads it through [||]. *)
Record Understanding := {
  intent : string;
  category : option string;
  keywords : list string;
  correctedQuery : option string;
  expandedTerms : list string;
  synonyms : list string;
  didYouMean : option string
}.

(** ** The index query builder ([buildElasticsearchQuery]) *)

Inductive Field := Title | Content | Description | PageDescription | Url | Category.

Inductive Clause :=
| match_phrase (f : Field) (query : string) (boost : Z)
| match_and (f : Field) (query : string) (boost : Z)
| match_phrase_prefix (f : Field) (query : string) (boost max_expansions : Z)
| prefix (f : Field) (value : string) (boost : Z)
| wildcard (f : Field) (value : string) (boost : Z) (case_insensitive : bool)
| term (f : Field) (value : string)
| match_all.

(** [{ bool: { must, should, minimum_should_match } }]; [must] is
    [undefined] when there is no mandatory clause. *)
Record BoolQuery := {
  must : option (list Clause);
  should : list Clause;
  minimum_should_match : Z
}.

(** The clauses pushed for one term that passed the blank test. *)
Definition phraseClauses (t : string) : list Clause :=
  [ match_phrase Title t 10; match_phrase Content t 8;
    match_phrase Description t 6; match_phrase PageDescription t 7 ].

Definition matchClauses (t : string) : list Clause :=
  [ match_and Title t 5; match_and Content t 3;
    match_and Description t 2; match_and PageDescription t 4 ].

Definition prefixClauses (t : string) : list Clause :=
  if (3 <=? String.length t)%nat
  then [ match_phrase_prefix Title t 4 50; prefix Title (JS.toLowerCase t) 3 ]
  else [].

Definition urlClause (t : string) : Clause :=
  wildcard Url ("*" +:+ JS.replace_ws "*" t +:+ "*") 7 true.

Definition termClauses (t : string) : list Clause :=
  phraseClauses t ++ matchClauses t ++ prefixClauses t ++ [urlClause t].

(** [term && term.trim().length > 0] *)
Definition nonBlank (t : string) : bool := JS.nonEmpty t && JS.nonEmpty (JS.trim t).

Definition searchTerms (u : Understanding) : list string :=
  let allTerms := List.filter JS.nonEmpty
                    (keywords u ++ expandedTerms u ++ synonyms u) in
  match allTerms with [] => keywords u | _ => allTerms end.

Definition shouldClauses (u : Understanding) : list Clause :=
  flat_map (fun t => if nonBlank t then termClauses t else []) (searchTerms u).

(** [categoryFilter || category]: the category the builder filters on. *)
Definition builderCategory (u : Understanding) (categoryFilter : option string)
  : option string :=
  JS.or categoryFilter (category u).

Definition mustClauses (u : Understanding) (categoryFilter : option string)
  : list Clause :=
  match builderCategory u categoryFilter with
  | Some c => if JS.nonEmpty c && JS.nonEmpty (JS.trim c) then [term Category c] else []
  | None => []
  end.

Definition buildElasticsearchQuery (u : Understanding) (categoryFilter : option string)
  : BoolQuery :=
  let sc := shouldClauses u in
  let mc := mustClauses u categoryFilter in
  {| must := match mc with [] => None | _ => Some mc end;
     should := match sc with [] => [match_all] | _ => sc end;
     minimum_should_match := match sc with [] => 0 | _ => 1 end |}.

(** ** The process state: caches, clock and the external service

    [ai-cache.js] keeps one [Map] per cache class, from hex digest to
    [{ data, timestamp }].  The suggestions cache plays no part in
    [GET /search] and is left out.  [now] is what [Date.now()] returns;
    [groqCalls] counts the invocations of [callGroq]. *)

Record Entry (A : Type) := { data : A; timestamp : Z }.
Arguments data {A} _.
Arguments timestamp {A} _.

Module CACHE_TTL.
Definition UNDERSTAND_QUERY : Z := 30 * 60 * 1000.
Definition OVERVIEW : Z := 60 * 60 * 1000.
Definition RANKING : Z := 30 * 60 * 1000.
End CACHE_TTL.

Record World := {
  understandQueryCache : gmap string (Entry Understanding);
  overviewCache : gmap string (Entry (option string));
  rankingCache : gmap string (Entry (list SearchResult));
  now : Z;
  groqCalls : nat
}.

(** A cache class: where its map lives in the state, and its TTL. *)
Record CacheClass (A : Type) := {
  cmap : World -> gmap string (Entry A);
  cset : gmap string (Entry A) -> World -> World;
  ttl : Z
}.
Arguments cmap {A} _ _.
Arguments cset {A} _ _ _.
Arguments ttl {A} _.

Definition understandQueryClass : CacheClass Understanding :=
  {| cmap := understandQueryCache;
     cset := fun m w => {| understandQueryCache := m; overviewCache := overviewCache w;
                           rankingCache := rankingCache w; now := now w;
                           groqCalls := groqCalls w |};
     ttl := CACHE_TTL.UNDERSTAND_QUERY |}.

Definition overviewClass : CacheClass (option string) :=
  {| cmap := overviewCache;
     cset := fun m w => {| understandQueryCache := understandQueryCache w; overviewCache := m;
                           rankingCache := rankingCache w; now := now w;
                           groqCalls := groqCalls w |};
     ttl := CACHE_TTL.OVERVIEW |}.

Definition rankingClass : CacheClass (list SearchResult) :=
  {| cmap := rankingCache;
     cset := fun m w => {| understandQueryCache := understandQueryCache w;
                           overviewCache := overviewCache w; rankingCache := m;
                           now := now w; groqCalls := groqCalls w |};
     ttl := CACHE_TTL.RANKING |}.

(** Time passing between two requests. *)
Definition elapse (d : Z) (w : World) : World :=
  {| understandQueryCache := understandQueryCache w; overviewCache := overviewCache w;
     rankingCache := rankingCache w; now := now w + d; groqCalls := groqCalls w |}.

(** *** The state monad the asynchronous functions run in *)

Definition M (A : Type) : Type := World -> A * World.

Definition ret {A} (a : A) : M A := fun w => (a, w).

Definition bind {A B} (m : M A) (k : A -> M B) : M B :=
  fun w => let (a, w') := m w in k a w'.

Notation "'let!' x ':=' m 'in' k" := (bind m (fun x => k))
  (at level 10, x name, m at level 100, k at level 200).
Notation "'do!' m 'in' k" := (bind m (fun _ => k))
  (at level 10, m at level 100, k at level 200).

Definition gets {A} (f : World -> A) : M A := fun w => (f w, w).
Definition modify (f : World -> World) : M unit := fun w => (tt, f w).

(** *** The external completion service

    What one call to the service does is an input of the model: how long it
    takes and either a rejection (the [try] block of the caller throws: no
    API key, time-out, non-2xx, a completion without [choices], ...) or an
    answer.  An answer whose content is missing or is not JSON is
    [answered None]: the callers then go on with ['{}']. *)

Inductive completion (A : Type) :=
| rejected
| answered (json : option A).
Arguments rejected {A}.
Arguments answered {A} _.

Record Service (A : Type) := { latency : Z; outcome : completion A }.
Arguments latency {A} _.
Arguments outcome {A} _.

Definition callGroq {A} (svc : Service A) : M (completion A) :=
  fun w => (outcome svc,
            {| understandQueryCache := understandQueryCache w;
               overviewCache := overviewCache w; rankingCache := rankingCache w;
               now := now w + latency svc; groqCalls := S (groqCalls w) |}).

(** *** Generic cache operations, as repeated for each class in [ai-cache.js] *)

(** [isCacheValid(entry, ttl)] for an entry that exists: a zero timestamp
    is falsy. *)
Definition fresh {A} (entry : Entry A) (ttl t : Z) : bool :=
  negb (timestamp entry =? 0) && (t - timestamp entry <? ttl).

Definition isCacheValid {A} (entry : Entry A) (ttl : Z) : M bool :=
  let! t := gets now in
  ret (fresh entry ttl t).

(** [getCached...]: the data of a valid entry; a stale entry is deleted. *)
Definition getCached {A} (C : CacheClass A) (key : string) : M (option A) :=
  let! cached := gets (fun w => cmap C w !! key) in
  match cached with
  | Some entry =>
      let! valid := isCacheValid entry (ttl C) in
      if valid then ret (Some (data entry))
      else do! modify (fun w => cset C (delete key (cmap C w)) w) in ret None
  | None => ret None
  end.

(** [cache...]: overwrite with the current time. *)
Definition putCached {A} (C : CacheClass A) (key : string) (d : A) : M unit :=
  let! t := gets now in
  modify (fun w => cset C (<[key := {| data := d; timestamp := t |}]> (cmap C w)) w).

(** ** Answers of the service, as the callers read them *)

(** The JSON object asked from the service by [understandQuery]; a field the
    service left out is [None]. *)
Record UnderstandingJson := {
  j_intent : option string;
  j_category : option string;
  j_keywords : option (list string);
  j_correctedQuery : option string;
  j_expandedTerms : option (list string);
  j_synonyms : option (list string);
  j_didYouMean : option string
}.

(** [{}] *)
Definition emptyUnderstandingJson : UnderstandingJson :=
  {| j_intent := None; j_category := None; j_keywords := None;
     j_correctedQuery := None; j_expandedTerms := None; j_synonyms := None;
     j_didYouMean := None |}.

(** The JSON object asked from the service by [rankResults]: a list of
    0-based indices.  The indices are integers here; an answer that lists
    other JSON values (strings, say) is outside the model. *)
Record RankingJson := { rankedIndices : option (list Z) }.

(** ** The pipeline stages

    [crypto]'s MD5 is not part of the repository: the digest is a parameter
    of the development. *)

Section Pipeline.

Variable md5 : string -> string.

(** *** Cache keys *)

Definition getQueryCacheKey (query : string) : string :=
  let normalized := JS.trim (JS.toLowerCase query) in
  md5 normalized.

(** [r.id || r.url] *)
Definition identity (r : SearchResult) : string :=
  if JS.nonEmpty (r_id r) then r_id r else r_url r.

Definition getResultsCacheKey (query : string) (results : list SearchResult) : string :=
  let normalized := JS.trim (JS.toLowerCase query) in
  let resultIds := JS.join "|" (map identity (take 3 results)) in
  let combined := normalized +:+ "|" +:+ resultIds in
  md5 combined.

Definition getCachedUnderstanding (query : string) : M (option Understanding) :=
  getCached understandQueryClass (getQueryCacheKey query).

Definition cacheUnderstanding (query : string) (d : Understanding) : M unit :=
  putCached understandQueryClass (getQueryCacheKey query) d.

(** [getCachedOverview] returns [cached.data] or [null]: a cached [null]
    and a miss are the same value for its caller. *)
Definition getCachedOverview (query : string) (topResults : list SearchResult)
  : M (option string) :=
  let! cached := getCached overviewClass (getResultsCacheKey query topResults) in
  ret (mjoin cached).

Definition cacheOverview (query : string) (topResults : list SearchResult)
    (d : option string) : M unit :=
  putCached overviewClass (getResultsCacheKey query topResults) d.

Definition getCachedRanking (query : string) (results : list SearchResult)
  : M (option (list SearchResult)) :=
  getCached rankingClass (getResultsCacheKey query results).

Definition cacheRanking (query : string) (results d : list SearchResult) : M unit :=
  putCached rankingClass (getResultsCacheKey query results) d.

(** *** Query understanding ([understandQuery]) *)

(** [!query || query.trim().length === 0] *)
Definition isBlank (query : string) : bool :=
  negb (JS.nonEmpty query) || (String.length (JS.trim query) =? 0)%nat.

Definition blankUnderstanding : Understanding :=
  {| intent := "search"; category := None; keywords := [];
     correctedQuery := None; expandedTerms := []; synonyms := [];
     didYouMean := None |}.

(** The record of the [catch] branch. *)
Definition fallbackUnderstanding (query : string) : Understanding :=
  {| intent := "search"; category := None;
     keywords := List.filter (fun w => (0 <? String.length w)%nat) (JS.split_ws query);
     correctedQuery := None; expandedTerms := []; synonyms := [];
     didYouMean := None |}.

(** The record built from the parsed answer, with its defaults. *)
Definition normalizeUnderstanding (parsed : UnderstandingJson) : Understanding :=
  {| intent := match j_intent parsed with
               | Some i => if JS.nonEmpty i then i else "search"
               | None => "search"
               end;
     category := JS.or (j_category parsed) None;
     keywords := default [] (j_keywords parsed);
     correctedQuery := JS.or (j_correctedQuery parsed) None;
     expandedTerms := default [] (j_expandedTerms parsed);
     synonyms := default [] (j_synonyms parsed);
     didYouMean := JS.or (j_didYouMean parsed) None |}.

Definition understandQuery (svc : Service UnderstandingJson) (query : string)
  : M Understanding :=
  if isBlank query then ret blankUnderstanding
  else
    let! cached := getCachedUnderstanding query in
    match cached with
    | Some u => ret u
    | None =>
        let! completion := callGroq svc in
        match completion with
        | answered json =>
            let parsed := default emptyUnderstandingJson json in
            let result := normalizeUnderstanding parsed in
            do! cacheUnderstanding query result in
            ret result
        | rejected => ret (fallbackUnderstanding query)
        end
    end.

(** *** Overview synthesis ([generateOverview]) *)

Definition generateOverview (svc : Service string) (query : string)
    (topResults : list SearchResult) (intent : string) : M (option string) :=
  if negb (JS.nonEmpty query) || (length topResults =? 0)%nat then ret None
  else
    let! cached := getCachedOverview query topResults in
    match cached with
    | Some o => ret (Some o)
    | None =>
        let! completion := callGroq svc in
        match completion with
        | answered content =>
            let overview := JS.or (JS.trim <$> content) None in
            do! cacheOverview query topResults overview in
            ret overview
        | rejected => ret None
        end
    end.

(** *** Ranking ([rankResults]) *)

(** [results[idx]] for an integer [idx]: [undefined] out of range. *)
Definition at_index (results : list SearchResult) (idx : Z) : option SearchResult :=
  if idx <? 0 then None else results !! Z.to_nat idx.

(** [rankedIndices.map(idx => results[idx]).filter(Boolean)] *)
Definition pick (results : list SearchResult) (idxs : list Z) : list SearchResult :=
  omap (at_index results) idxs.

Definition rankResults (svc : Service RankingJson) (query : string)
    (results : list SearchResult) (intent : string) : M (list SearchResult) :=
  if (length results =? 0)%nat then ret results
  else
    let! cached := getCachedRanking query results in
    match cached with
    | Some ranked => ret ranked
    | None =>
        if (length results <=? 20)%nat then
          let! completion := callGroq svc in
          match completion with
          | answered json =>
              let idxs := default [] (json ≫= rankedIndices) in
              if (length idxs =? length results)%nat then
                let ranked := pick results idxs in
                do! cacheRanking query results ranked in
                ret ranked
              else
                do! cacheRanking query results results in
                ret results
          | rejected => ret results
          end
        else
          do! cacheRanking query results results in
          ret results
    end.

(** *** The orchestrator ([GET /search]) *)

(** The index engine, as the handler sees it: the candidate search is
    given the query, [size] and [from]; the aggregation is given the
    query.  [None] is a call that throws.  Hits are taken after the
    handler's field-by-field mapping, [total] after its unwrapping of
    [hits.total]. *)
Record Externals := {
  understandService : Service UnderstandingJson;
  esSearch : BoolQuery -> Z -> Z -> option (list SearchResult * Z);
  rankService : Service RankingJson;
  overviewService : Service string;
  esAggregation : BoolQuery -> option (list (string * Z) * Z)
}.

Record SearchResponse := {
  resp_results : list SearchResult;
  resp_total : Z;
  resp_categoryCounts : gmap string Z;
  resp_page : Z;
  resp_pageSize : Z;
  resp_totalPages : Z;
  resp_overview : option string;
  resp_didYouMean : option string;
  resp_intent : string;
  resp_understanding : option string * list string * list string
}.

(** The three bodies [GET /search] answers with: the early
    ["nothing to search"] body (whose [overview] and [didYouMean] are
    [null]), the assembled response, and the body of status 500 (which has
    neither field). *)
Inductive Response :=
| NothingToSearch
| Found (r : SearchResponse)
| SearchFailed.

(** [parseInt(raw) || d]: [None] is [NaN]. *)
Definition intOr (raw : option Z) (d : Z) : Z :=
  match raw with
  | Some n => if n =? 0 then d else n
  | None => d
  end.

Definition shouldUseDetectedCategory (u : Understanding) : bool :=
  String.eqb (intent u) "category-keyword" || String.eqb (intent u) "category-only".

(** [category || (shouldUseDetectedCategory ? understanding.category : null)] *)
Definition targetCategory (categ : string) (u : Understanding) : option string :=
  JS.or (Some categ) (if shouldUseDetectedCategory u then category u else None).

(** The query the handler sends to the index engine. *)
Definition esQuery (categ : string) (u : Understanding) : BoolQuery :=
  buildElasticsearchQuery u (targetCategory categ u).

(** [Math.ceil(total / pageSize)] for a non-zero [pageSize]: the ceiling of
    the exact quotient.  The code divides doubles; the rounding of its
    quotient is not modelled.  It does not show while both operands are
    safe integers (see [MAX_SAFE_INTEGER]); beyond them the code can be off
    this value. *)
Definition ceilDiv (a b : Z) : Z := - ((- a) / b).

Definition countsOf (agg : option (list (string * Z) * Z)) : gmap string Z :=
  match agg with
  | Some (buckets, allTotal) =>
      <[ EmptyString := allTotal ]>
        (foldl (fun m b => <[ b.1 := b.2 ]> m) ∅ buckets)
  | None => ∅
  end.

Definition search (ext : Externals) (query categ : string)
    (rawPage rawPageSize : option Z) : M Response :=
  let page := intOr rawPage 1 in
  let pageSize := intOr rawPageSize 10 in
  let from := (page - 1) * pageSize in
  if negb (JS.nonEmpty query) && negb (JS.nonEmpty categ) then ret NothingToSearch
  else
    let! understanding := understandQuery (understandService ext) query in
    let q := esQuery categ understanding in
    match esSearch ext q (Z.min (pageSize * 2) 100) from with
    | None => ret SearchFailed
    | Some (hits, total) =>
        let! ranked :=
          (if (0 <? length hits)%nat && (0 <? String.length (JS.trim query))%nat
           then rankResults (rankService ext) query hits (intent understanding)
           else ret hits) in
        let results := JS.slice0 pageSize ranked in
        let! overview :=
          (if (page =? 1) && (0 <? String.length (JS.trim query))%nat
              && (0 <? length results)%nat
           then generateOverview (overviewService ext) query results
                  (intent understanding)
           else ret None) in
        ret (Found
          {| resp_results := results;
             resp_total := total;
             resp_categoryCounts := countsOf (esAggregation ext q);
             resp_page := page;
             resp_pageSize := pageSize;
             resp_totalPages := ceilDiv total pageSize;
             resp_overview := overview;
             resp_didYouMean :=
               JS.or (JS.or (didYouMean understanding) (correctedQuery understanding)) None;
             resp_intent := intent understanding;
             resp_understanding :=
               (category understanding, keywords understanding,
                expandedTerms understanding) |})
    end.

(** [overview] and [didYouMean] of a body, [null] or absent being [None]. *)
Definition overviewOf (r : Response) : option string :=
  match r with Found r => resp_overview r | _ => None end.

Definition didYouMeanOf (r : Response) : option string :=
  match r with Found r => resp_didYouMean r | _ => None end.

(** *** What the results page keeps of a response

    [search] of [frontend/lib/api.ts] reads [overview || null] and
    [didYouMean || null] off the body; the results page stores, for the
    page it asked for, [page === 1 ? (value || null) : null] in its
    pagination cache and shows the same. *)
Definition keptOverview (page : Z) (r : Response) : option string :=
  let aiOverview := JS.or (overviewOf r) None in
  if page =? 1 then JS.or aiOverview None else None.

Definition keptDidYouMean (page : Z) (r : Response) : option string :=
  let correction := JS.or (didYouMeanOf r) None in
  if page =? 1 then JS.or correction None else None.

End Pipeline.

(** ** Vocabulary of the properties *)

(** The words of a query: its maximal runs of characters that are not white
    space, in order.  This is the reading of "the whitespace-split non-empty
    words" that [fallbackUnderstanding] is compared with. *)
Fixpoint words_go (s cur : string) : list string :=
  match s with
  | EmptyString => match cur with EmptyString => [] | _ => [cur] end
  | String c s' =>
      if JS.isWhiteSpace c then
        match cur with
        | EmptyString => words_go s' EmptyString
        | _ => cur :: words_go s' EmptyString
        end
      else words_go s' (cur +:+ String c EmptyString)
  end.

Definition words (s : string) : list string := words_go s EmptyString.

(** [Number.MAX_SAFE_INTEGER].  Up to it, in magnitude, the integers are
    doubles, and the double nearest to the quotient of two of them lies
    strictly between the same two integers as the quotient when that is not
    an integer: [Math.ceil] of it is the exact ceiling. *)
Definition MAX_SAFE_INTEGER : Z := 2 ^ 53 - 1.

(** The clause tiers and the field order the boosts are compared on. *)
Inductive Tier := ExactPhrase | FullMatch | PrefixTier | WildcardTier.

Definition tierOf (c : Clause) : option Tier :=
  match c with
  | match_phrase _ _ _ => Some ExactPhrase
  | match_and _ _ _ => Some FullMatch
  | match_phrase_prefix _ _ _ _ | prefix _ _ _ => Some PrefixTier
  | wildcard _ _ _ _ => Some WildcardTier
  | term _ _ | match_all => None
  end.




(** The text a clause searches for. *)
Definition textOf (c : Clause) : option string :=
  match c with
  | match_phrase _ q _ | match_and _ q _ | match_phrase_prefix _ q _ _ => Some q
  | prefix _ v _ | wildcard _ v _ _ | term _ v => Some v
  | match_all => None
  end.













Definition isPrefixClause (c : Clause) : bool :=
  match tierOf c with Some PrefixTier => true | _ => false end.

Definition isWildcardClause (c : Clause) : bool :=
  match tierOf c with Some WildcardTier => true | _ => false end.

(** *** The boolean-query contract of the index engine

    The engine is an external collaborator.  A document is selected by a
    [bool] query when it satisfies every [must] clause and at least
    [minimum_should_match] of the [should] clauses.  How a text clause
    matches depends on the engine's analysis and is a parameter; [match_all]
    matches everything and a [term] clause on the keyword field [category]
    is an exact comparison. *)
Section Engine.

Variable textMatch : Clause -> SearchResult -> bool.

Definition clauseMatches (c : Clause) (d : SearchResult) : bool :=
  match c with
  | match_all => true
  | term Category v => String.eqb (r_category d) v
  | _ => textMatch c d
  end.

Definition selects (q : BoolQuery) (d : SearchResult) : bool :=
  forallb (fun c => clauseMatches c d) (default [] (must q))
  && (minimum_should_match q
      <=? Z.of_nat (length (List.filter (fun c => clauseMatches c d) (should q)))).

End Engine.

(** An entry of class [C] under [key], if there is one, is within its TTL
    at the current time of [w]. *)
Definition withinTTL {A} (C : CacheClass A) (key : string) (w : World) : Prop :=
  forall e, cmap C w !! key = Some e -> fresh e (ttl C) (now w) = true.

(** The cache of class [C] has no usable entry under [key] at the current
    time of [w]. *)
Definition misses {A} (C : CacheClass A) (key : string) (w : World) : Prop :=
  forall e, cmap C w !! key = Some e -> fresh e (ttl C) (now w) = false.

(** A collision-free stand-in for the digest, to run the pipeline on
    concrete inputs. *)
Definition plainDigest (s : string) : string := s.

Definition emptyWorld (t : Z) : World :=
  {| understandQueryCache := ∅; overviewCache := ∅; rankingCache := ∅;
     now := t; groqCalls := 0 |}.

Definition page_of (id title : string) : SearchResult :=
  {| r_id := id; r_url := "https://i2e.example/" +:+ id; r_title := title;
     r_description := EmptyString; r_content := EmptyString;
     r_page_description := EmptyString; r_category := "blogs";
     r_last_modified := EmptyString |}.

(** ** The rest of [ai-cache.js]: suggestions, sweep, statistics

    The suggestions cache is the fourth [Map] of [ai-cache.js].  The server
    state is the state of the search pipeline together with it. *)

Definition CACHE_TTL_SUGGESTIONS : Z := 15 * 60 * 1000.

Record Server := {
  world : World;
  suggestionsCache : gmap string (Entry (list string))
}.

(** Time passing on the server. *)
Definition advance (d : Z) (s : Server) : Server :=
  {| world := elapse d (world s); suggestionsCache := suggestionsCache s |}.

(** The entries of a [Map] that [isCacheValid] accepts at time [t]: what is
    left of it after the loop of [cleanExpiredEntries]. *)
Definition sweep {A} (ttl t : Z) (m : gmap string (Entry A)) : gmap string (Entry A) :=
  filter (fun kv => fresh kv.2 ttl t = true) m.

(** [cleanExpiredEntries()]; synchronous code sees one value of the clock. *)
Definition cleanExpiredEntries (s : Server) : Server :=
  let w := world s in
  {| world :=
       {| understandQueryCache :=
            sweep CACHE_TTL.UNDERSTAND_QUERY (now w) (understandQueryCache w);
          overviewCache := sweep CACHE_TTL.OVERVIEW (now w) (overviewCache w);
          rankingCache := sweep CACHE_TTL.RANKING (now w) (rankingCache w);
          now := now w; groqCalls := groqCalls w |};
     suggestionsCache := sweep CACHE_TTL_SUGGESTIONS (now w) (suggestionsCache s) |}.

(** [clearAllCaches()] *)
Definition clearAllCaches (s : Server) : Server :=
  {| world := {| understandQueryCache := ∅; overviewCache := ∅; rankingCache := ∅;
                 now := now (world s); groqCalls := groqCalls (world s) |};
     suggestionsCache := ∅ |}.

(** The object returned by [getCacheStats()]; the TTLs are in minutes. *)
Record CacheStats := {
  stat_understandQuery : nat;
  stat_suggestions : nat;
  stat_overview : nat;
  stat_ranking : nat;
  stat_total : nat;
  stat_ttl_understandQuery : Z;
  stat_ttl_suggestions : Z;
  stat_ttl_overview : Z;
  stat_ttl_ranking : Z
}.

(** [getCacheStats()]: sweeps, then reports the sizes. *)
Definition getCacheStats (s : Server) : CacheStats * Server :=
  let s' := cleanExpiredEntries s in
  let w := world s' in
  ({| stat_understandQuery := size (understandQueryCache w);
      stat_suggestions := size (suggestionsCache s');
      stat_overview := size (overviewCache w);
      stat_ranking := size (rankingCache w);
      stat_total := size (understandQueryCache w) + size (suggestionsCache s')
                    + size (overviewCache w) + size (rankingCache w);
      stat_ttl_understandQuery := CACHE_TTL.UNDERSTAND_QUERY / 1000 / 60;
      stat_ttl_suggestions := CACHE_TTL_SUGGESTIONS / 1000 / 60;
      stat_ttl_overview := CACHE_TTL.OVERVIEW / 1000 / 60;
      stat_ttl_ranking := CACHE_TTL.RANKING / 1000 / 60 |}, s').

(** The JSON object asked from the service by [generateSuggestions]. *)
Record SuggestionsJson := {
  j_suggestions : option (list string);
  j_array : option (list string)
}.

(** An entry of the autocomplete list of [GET /suggest], as mapped from an
    index hit or made from a suggested text. *)
Record Suggestion := {
  s_id : string;
  s_url : string;
  s_title : string;
  s_description : string;
  s_category : string
}.

(** [s.startsWith(p)] *)
Fixpoint startsWith (p s : string) : bool :=
  match p, s with
  | EmptyString, _ => true
  | String a p', String b s' => Ascii.eqb a b && startsWith p' s'
  | String _ _, EmptyString => false
  end.

(** [s.includes(sub)] *)
Fixpoint includes (sub s : string) : bool :=
  startsWith sub s
  || match s with
     | EmptyString => false
     | String _ s' => includes sub s'
     end.

(** Some character of [s] satisfies [p]. *)
Fixpoint anyChar (p : ascii -> bool) (s : string) : bool :=
  match s with
  | EmptyString => false
  | String c s' => p c || anyChar p s'
  end.

(** The characters of [s] that satisfy [p], in order. *)
Fixpoint keepChars (p : ascii -> bool) (s : string) : string :=
  match s with
  | EmptyString => EmptyString
  | String c s' => if p c then String c (keepChars p s') else keepChars p s'
  end.

(** [[...new Set(l)]]: the first occurrence of each string, in order. *)
Fixpoint uniq_go (seen l : list string) : list string :=
  match l with
  | [] => []
  | x :: l' =>
      if bool_decide (x ∈ seen) then uniq_go seen l'
      else x :: uniq_go (x :: seen) l'
  end.

Definition uniq (l : list string) : list string := uniq_go [] l.

(** [l.find(p)] *)
Definition findFirst {A} (p : A -> bool) (l : list A) : option A := List.find p l.

(** [l.map((x, index) => f(x, index))] from index [i] on. *)
Fixpoint mapi_from {A B} (f : A -> nat -> B) (i : nat) (l : list A) : list B :=
  match l with
  | [] => []
  | x :: l' => f x i :: mapi_from f (S i) l'
  end.

Section Suggestions.

Variable md5 : string -> string.

(** [getCachedSuggestions(query)] *)
Definition getCachedSuggestions (query : string) (s : Server)
  : option (list string) * Server :=
  let key := getQueryCacheKey md5 query in
  match suggestionsCache s !! key with
  | Some entry =>
      if fresh entry CACHE_TTL_SUGGESTIONS (now (world s)) then (Some (data entry), s)
      else (None, {| world := world s;
                     suggestionsCache := delete key (suggestionsCache s) |})
  | None => (None, s)
  end.

(** [cacheSuggestions(query, data)] *)
Definition cacheSuggestions (query : string) (d : list string) (s : Server) : Server :=
  let key := getQueryCacheKey md5 query in
  {| world := world s;
     suggestionsCache :=
       <[key := {| data := d; timestamp := now (world s) |}]> (suggestionsCache s) |}.

(** [generateSuggestions(query, existingResults)]; the existing results only
    enter the prompt.  A cached list is served even when it is empty. *)
Definition generateSuggestions (svc : Service SuggestionsJson) (query : string)
    (existingResults : list Suggestion) (s : Server) : list string * Server :=
  if negb (JS.nonEmpty query) || (String.length (JS.trim query) <? 1)%nat then ([], s)
  else
    let (cached, s1) := getCachedSuggestions query s in
    match cached with
    | Some l => (l, s1)
    | None =>
        let (completion, w2) := callGroq svc (world s1) in
        let s2 := {| world := w2; suggestionsCache := suggestionsCache s1 |} in
        match completion with
        | answered json =>
            let suggestions :=
              match json with
              | Some parsed =>
                  match j_suggestions parsed, j_array parsed with
                  | Some l, _ => l
                  | None, Some l => l
                  | None, None => []
                  end
              | None => []
              end in
            (suggestions, cacheSuggestions query suggestions s2)
        | rejected => ([], s2)
        end
    end.

(** What [GET /suggest] gets from outside: the two calls to the service and
    the search of the index engine for context (how long it takes and its
    hits after the handler's mapping; [None] when the call throws). *)
Record SuggestExternals := {
  firstService : Service SuggestionsJson;
  contextSearch : BoolQuery -> Z -> option (Z * list Suggestion);
  secondService : Service SuggestionsJson
}.

(** The record [GET /suggest] hands to the query builder. *)
Definition suggestUnderstanding (query : string) : Understanding :=
  {| intent := "search"; category := None; keywords := [query];
     correctedQuery := None; expandedTerms := []; synonyms := [];
     didYouMean := None |}.

(** The test of [esResults.find] for a suggested text. *)
Definition titleMatches (suggestion : string) (r : Suggestion) : bool :=
  includes (JS.toLowerCase suggestion) (JS.toLowerCase (s_title r))
  || includes (JS.toLowerCase (s_title r)) (JS.toLowerCase suggestion).

Definition toSuggestion (esResults : list Suggestion) (suggestion : string) (index : nat)
  : Suggestion :=
  match findFirst (titleMatches suggestion) esResults with
  | Some matchingResult => matchingResult
  | None =>
      {| s_id := "ai-suggestion-" +:+ pretty index; s_url := EmptyString;
         s_title := suggestion; s_description := EmptyString;
         s_category := EmptyString |}
  end.

(** The [forEach] that appends the hits not yet in the list. *)
Definition addMissing (suggestions esResults : list Suggestion) : list Suggestion :=
  foldl (fun acc result =>
           if existsb (fun x => String.eqb (s_id x) (s_id result)) acc then acc
           else acc ++ [result])
        suggestions esResults.

(** [GET /suggest]: the [suggestions] of the body. *)
Definition suggest (ext : SuggestExternals) (query : string) (s : Server)
  : list Suggestion * Server :=
  if negb (JS.nonEmpty query) || (String.length query <? 1)%nat then ([], s)
  else
    let (aiSuggestions, s1) := generateSuggestions (firstService ext) query [] s in
    let esQuery := buildElasticsearchQuery (suggestUnderstanding query) None in
    match contextSearch ext esQuery 5 with
    | None => ([], s1)
    | Some (took, esResults) =>
        let (contextualSuggestions, s2) :=
          generateSuggestions (secondService ext) query esResults (advance took s1) in
        let allSuggestions := take 6 (uniq (aiSuggestions ++ contextualSuggestions)) in
        let suggestions := mapi_from (toSuggestion esResults) 0 allSuggestions in
        (take 6 (addMissing suggestions esResults), s2)
    end.

End Suggestions.

(** ** The pagination cache of the results page ([frontend/lib/cache.ts])

    One [Map] from [query|category|page] to the data of a page and the time
    it was stored, with a TTL of 5 minutes.  Page numbers are integers. *)

Definition CLIENT_CACHE_TTL : Z := 5 * 60 * 1000.

Record PageData := {
  pd_results : list SearchResult;
  pd_total : Z;
  pd_categoryCounts : gmap string Z;
  pd_totalPages : Z;
  pd_overview : option string;
  pd_didYouMean : option string;
  pd_intent : option string
}.

Record Browser := {
  pageCache : gmap string (Entry PageData);
  clientNow : Z
}.

Definition getCacheKey (query categ : string) (page : Z) : string :=
  JS.trim (JS.toLowerCase query) +:+ "|" +:+ categ +:+ "|" +:+ pretty page.

(** [isCacheValid(entry)] of the frontend: no test of the timestamp itself. *)
Definition clientValid (entry : Entry PageData) (t : Z) : bool :=
  t - timestamp entry <? CLIENT_CACHE_TTL.

Definition getCachedResults (query categ : string) (page : Z) (b : Browser)
  : option (Entry PageData) * Browser :=
  let key := getCacheKey query categ page in
  match pageCache b !! key with
  | Some cached =>
      if clientValid cached (clientNow b) then (Some cached, b)
      else (None, {| pageCache := delete key (pageCache b); clientNow := clientNow b |})
  | None => (None, b)
  end.

Definition cacheResults (query categ : string) (page : Z) (d : PageData) (b : Browser)
  : Browser :=
  {| pageCache := <[getCacheKey query categ page :=
                      {| data := d; timestamp := clientNow b |}]> (pageCache b);
     clientNow := clientNow b |}.

Definition clearCacheForQuery (query : string) (b : Browser) : Browser :=
  {| pageCache :=
       filter (fun kv => startsWith (JS.trim (JS.toLowerCase query) +:+ "|") kv.1 = false)
              (pageCache b);
     clientNow := clientNow b |}.

Definition clearAllCache (b : Browser) : Browser :=
  {| pageCache := ∅; clientNow := clientNow b |}.

Definition later (d : Z) (b : Browser) : Browser :=
  {| pageCache := pageCache b; clientNow := clientNow b + d |}.

(** ** The API key of the content store ([getCleanApiKey])

    [raw.trim().replace(/^["']|["']$/g, '').trim()]: the pattern removes one
    quote at the start and one quote at the end, the two matches never
    sharing a character. *)

Definition isQuote (c : ascii) : bool :=
  (nat_of_ascii c =? 34)%nat || (nat_of_ascii c =? 39)%nat.

(** Removes the last character when it is a quote. *)
Fixpoint dropLastQuote (s : string) : string :=
  match s with
  | EmptyString => EmptyString
  | String c EmptyString => if isQuote c then EmptyString else s
  | String c s' => String c (dropLastQuote s')
  end.

Definition stripQuotes (s : string) : string :=
  match s with
  | EmptyString => EmptyString
  | String c s' => if isQuote c then dropLastQuote s' else dropLastQuote s
  end.

Definition getCleanApiKey (raw : string) : string :=
  if negb (JS.nonEmpty raw) then EmptyString
  else JS.trim (stripQuotes (JS.trim raw)).

(** ** Properties of the query builder *)

Lemma toLowerCase_length (s : string) :
  String.length (JS.toLowerCase s) = String.length s.
Proof. induction s as [|c s IH]; simpl; congruence. Qed.

Lemma termClauses_prefix (t : string) :
  existsb isPrefixClause (termClauses t) = (3 <=? String.length t)%nat.
Proof.
  unfold termClauses, prefixClauses.
  destruct (3 <=? String.length t)%nat; reflexivity.
Qed.

Lemma shouldClauses_elem (u : Understanding) (c : Clause) :
  c ∈ shouldClauses u <->
  exists t, t ∈ searchTerms u /\ nonBlank t = true /\ c ∈ termClauses t.
Proof.
  unfold shouldClauses. rewrite list_elem_of_In, in_flat_map. split.
  - intros (t & Ht & Hc). exists t.
    destruct (nonBlank t); [| by inversion Hc].
    by rewrite !list_elem_of_In.
  - intros (t & Ht & Hnb & Hc). exists t. rewrite Hnb.
    apply list_elem_of_In in Ht, Hc. done.
Qed.

Lemma termClauses_prefix_text (t : string) (c : Clause) :
  c ∈ termClauses t -> isPrefixClause c = true ->
  (3 <= String.length t)%nat /\
  exists s, textOf c = Some s /\ String.length s = String.length t.
Proof.
  unfold termClauses, prefixClauses, phraseClauses, matchClauses.
  destruct (3 <=? String.length t)%nat eqn:Hlen; intros Hin Hp;
    set_unfold in Hin; destruct_or?; subst; simpl in Hp; try discriminate.
  - split; [by apply Nat.leb_le |]. by exists t.
  - split; [by apply Nat.leb_le |]. eexists. split; [done |].
    apply toLowerCase_length.
Qed.



(** C8, as amended.  Among the should-clauses of any understanding record, a
    prefix clause ([match_phrase_prefix] or [prefix]) only occurs for a term
    of length at least 3 and searches for a text of that length, and a term
    shorter than 3 gets none; the wildcard clause on url is pushed for every
    non-blank term, whatever its length. *)
Theorem prefix_only_for_long_terms (u : Understanding) :
  (forall c, c ∈ shouldClauses u -> isPrefixClause c = true ->
     exists s, textOf c = Some s /\ (3 <= String.length s)%nat)
  /\ (forall t, existsb isPrefixClause (termClauses t) = (3 <=? String.length t)%nat)
  /\ (forall t, t ∈ searchTerms u -> nonBlank t = true ->
        urlClause t ∈ shouldClauses u /\ isWildcardClause (urlClause t) = true).
Proof.
  split; [| split].
  - intros c Hc Hp. apply shouldClauses_elem in Hc as (t & _ & _ & Hin).
    destruct (termClauses_prefix_text t c Hin Hp) as (Hlen & s & Hs & Hl).
    exists s. split; [done | lia].
  - apply termClauses_prefix.
  - intros t Ht Hnb. split; [| reflexivity].
    apply shouldClauses_elem. exists t. repeat split; try done.
    unfold termClauses. set_solver.
Qed.

(** C8, refuted as stated: the two-character term ["ab"] gets a wildcard
    clause. *)
Lemma wildcard_for_short_term :
  (String.length "ab" < 3)%nat
  /\ wildcard Url "*ab*" 7 true
     ∈ shouldClauses {| intent := "search"; category := None; keywords := ["ab"];
                        correctedQuery := None; expandedTerms := [];
                        synonyms := []; didYouMean := None |}
  /\ isWildcardClause (wildcard Url "*ab*" 7 true) = true.
Proof.
  split; [simpl; lia |]. split; [| reflexivity].
  vm_compute. set_solver.
Qed.

Lemma shouldClauses_nil (u : Understanding) :
  shouldClauses u = [] <-> forall t, t ∈ searchTerms u -> nonBlank t = false.
Proof.
  split.
  - intros Hnil t Ht. destruct (nonBlank t) eqn:Hnb; [| done].
    assert (Hin : urlClause t ∈ shouldClauses u).
    { apply shouldClauses_elem. exists t. repeat split; try done.
      unfold termClauses. set_solver. }
    rewrite Hnil in Hin. by apply elem_of_nil in Hin.
  - intros Hall. unfold shouldClauses.
    induction (searchTerms u) as [|t l IH]; [done |]. simpl.
    rewrite (Hall t) by set_solver. simpl. apply IH.
    intros t' Ht'. apply Hall. set_solver.
Qed.

Lemma nonBlank_nonEmpty (s : string) : nonBlank s = true -> JS.nonEmpty s = true.
Proof. unfold nonBlank. by intros [? _]%andb_prop. Qed.

(** C7.  Whenever the builder has no should-clause for a record (which is
    exactly when none of its search terms is non-blank) it emits the single
    should-clause [match_all] with [minimum_should_match] 0, so the engine
    selects every document that passes the must-clauses; with at least one
    should-clause [minimum_should_match] is 1.  In particular a search with
    the empty query and a non-blank category leaves the state untouched (no
    call to the service, no cache access), sends the query
    [must: category = categ, should: match_all, minimum_should_match: 0],
    which selects exactly the documents of that category, and answers with
    what the engine returned, unranked and without overview. *)
Theorem empty_query_matches_category
    (md5 : string -> string) (ext : Externals) (categ : string)
    (rawPage rawPageSize : option Z) (w : World)
    (Hcateg : nonBlank categ = true) :
  let q := {| must := Some [term Category categ]; should := [match_all];
              minimum_should_match := 0 |} in
  let page := intOr rawPage 1 in
  let pageSize := intOr rawPageSize 10 in
  understandQuery md5 (understandService ext) EmptyString w = (blankUnderstanding, w)
  /\ esQuery categ blankUnderstanding = q
  /\ (forall textMatch d, selects textMatch q d = String.eqb (r_category d) categ)
  /\ search md5 ext EmptyString categ rawPage rawPageSize w
     = (match esSearch ext q (Z.min (pageSize * 2) 100) ((page - 1) * pageSize) with
        | None => SearchFailed
        | Some (hits, total) =>
            Found {| resp_results := JS.slice0 pageSize hits;
                     resp_total := total;
                     resp_categoryCounts := countsOf (esAggregation ext q);
                     resp_page := page; resp_pageSize := pageSize;
                     resp_totalPages := ceilDiv total pageSize;
                     resp_overview := None; resp_didYouMean := None;
                     resp_intent := "search";
                     resp_understanding := (None, [], []) |}
        end, w)
  /\ (forall u cf,
        (shouldClauses u = [] <-> forall t, t ∈ searchTerms u -> nonBlank t = false)
        /\ (shouldClauses u = [] ->
              should (buildElasticsearchQuery u cf) = [match_all]
              /\ minimum_should_match (buildElasticsearchQuery u cf) = 0
              /\ forall textMatch d,
                   selects textMatch (buildElasticsearchQuery u cf) d
                   = forallb (fun c => clauseMatches textMatch c d) (mustClauses u cf))
        /\ (shouldClauses u <> [] ->
              should (buildElasticsearchQuery u cf) = shouldClauses u
              /\ minimum_should_match (buildElasticsearchQuery u cf) = 1)).
Proof.
  intros q page pageSize.
  assert (Hq : esQuery categ blankUnderstanding = q).
  { unfold esQuery, buildElasticsearchQuery, mustClauses, builderCategory,
      targetCategory, JS.or. simpl.
    destruct (andb_prop _ _ Hcateg) as [Hne Htrim].
    unfold JS.truthy. by rewrite !Hne, !Htrim. }
  split; [reflexivity |]. split; [exact Hq |]. split; [| split].
  - intros textMatch d. unfold selects. simpl.
    by destruct (r_category d =? categ)%string.
  - unfold search. rewrite (nonBlank_nonEmpty _ Hcateg). simpl.
    unfold bind. simpl. rewrite Hq.
    fold page pageSize.
    destruct (esSearch ext q _ _) as [[hits total]|]; [| reflexivity].
    rewrite andb_false_r. unfold ret. simpl.
    rewrite andb_false_r. reflexivity.
  - intros u cf. split; [apply shouldClauses_nil |]. split.
    + intros Hnil. unfold buildElasticsearchQuery. rewrite Hnil. simpl.
      repeat split. intros textMatch d. unfold selects. simpl.
      rewrite andb_true_r. by destruct (mustClauses u cf).
    + intros Hne. unfold buildElasticsearchQuery.
      by destruct (shouldClauses u).
Qed.

(** C7 at the request [GET /search?q=&category=blogs]. *)
Lemma empty_query_matches_category_witness :
  nonBlank "blogs" = true
  /\ forall d, selects (fun _ _ => false)
       (esQuery "blogs" blankUnderstanding) d = String.eqb (r_category d) "blogs".
Proof.
  split; [reflexivity |].
  intros d.
  destruct (empty_query_matches_category plainDigest
              {| understandService := {| latency := 0; outcome := rejected |};
                 esSearch := fun _ _ _ => None;
                 rankService := {| latency := 0; outcome := rejected |};
                 overviewService := {| latency := 0; outcome := rejected |};
                 esAggregation := fun _ => None |}
              "blogs" None None (emptyWorld 1) eq_refl)
    as (_ & Hq & Hsel & _).
  rewrite Hq. apply Hsel.
Defined.

(** ** Properties of the caches *)

Lemma fresh_iff {A} (e : Entry A) (ttl t : Z) :
  fresh e ttl t = true <-> timestamp e <> 0 /\ t - timestamp e < ttl.
Proof.
  unfold fresh. rewrite andb_true_iff, negb_true_iff, Z.eqb_neq, Z.ltb_lt. tauto.
Qed.

Lemma getCached_unfold {A} (C : CacheClass A) (key : string) (w : World) :
  getCached C key w =
  match cmap C w !! key with
  | Some e =>
      if fresh e (ttl C) (now w) then (Some (data e), w)
      else (None, cset C (delete key (cmap C w)) w)
  | None => (None, w)
  end.
Proof.
  unfold getCached, bind, gets, isCacheValid, bind, gets, ret, modify.
  destruct (cmap C w !! key) as [e|]; [| reflexivity].
  by destruct (fresh e (ttl C) (now w)).
Qed.

Lemma getCached_hit {A} (C : CacheClass A) (key : string) (w : World) (e : Entry A) :
  cmap C w !! key = Some e -> fresh e (ttl C) (now w) = true ->
  getCached C key w = (Some (data e), w).
Proof. intros He Hf. by rewrite getCached_unfold, He, Hf. Qed.

Lemma split_go_words (s : string) :
  (forall cur,
     List.filter (fun w => (0 <? String.length w)%nat) (JS.split_go s cur false)
     = words_go s cur)
  /\ List.filter (fun w => (0 <? String.length w)%nat) (JS.split_go s EmptyString true)
     = words_go s EmptyString.
Proof.
  induction s as [|c s [IHf IHt]]; simpl.
  - split; [| reflexivity]. by intros [|a cur].
  - destruct (JS.isWhiteSpace c).
    + split; [| exact IHt]. intros [|a cur]; simpl; by rewrite IHt.
    + split; [intros cur; apply IHf | apply (IHf (String c EmptyString))].
Qed.

Lemma fallback_keywords (query : string) :
  keywords (fallbackUnderstanding query) = words query.
Proof. apply (proj1 (split_go_words query)). Qed.

(** C9, as amended.  For a non-blank query with no usable cache entry:
    when the call to the service throws, the understanding stage returns
    the fallback record: intent [search], no category, the words of the
    query as keywords, nothing else.  The record depends on the query alone,
    whatever the caches hold.  The failing call is counted, and the fallback
    is not cached: afterwards there is no entry under the key of the query,
    and every other key is as it was.  When the service answers with a
    content that is missing or is not JSON, the stage does not take the
    fallback: it goes on with the empty object, returns the record of the
    defaults, whose keywords are empty, and caches that record under the key
    of the query at the time the answer came. *)
Theorem understandQuery_fallback
    (md5 : string -> string) (svc : Service UnderstandingJson)
    (query : string) (w : World)
    (Hquery : isBlank query = false)
    (Hmiss : misses understandQueryClass (getQueryCacheKey md5 query) w) :
  let res := understandQuery md5 svc query w in
  (outcome svc = rejected ->
     res.1 = {| intent := "search"; category := None; keywords := words query;
                correctedQuery := None; expandedTerms := []; synonyms := [];
                didYouMean := None |}
     /\ understandQueryCache res.2 !! getQueryCacheKey md5 query = None
     /\ (forall k, k <> getQueryCacheKey md5 query ->
           understandQueryCache res.2 !! k = understandQueryCache w !! k)
     /\ groqCalls res.2 = S (groqCalls w))
  /\ (outcome svc = answered None ->
        res.1 = {| intent := "search"; category := None; keywords := [];
                   correctedQuery := None; expandedTerms := []; synonyms := [];
                   didYouMean := None |}
        /\ understandQueryCache res.2 !! getQueryCacheKey md5 query
           = Some {| data := res.1; timestamp := now w + latency svc |}
        /\ (forall k, k <> getQueryCacheKey md5 query ->
              understandQueryCache res.2 !! k = understandQueryCache w !! k)
        /\ groqCalls res.2 = S (groqCalls w)).
Proof.
  intros res. subst res. unfold understandQuery. rewrite Hquery.
  unfold bind, getCachedUnderstanding. rewrite getCached_unfold.
  unfold misses in Hmiss. simpl in *.
  destruct (understandQueryCache w !! getQueryCacheKey md5 query) as [e|] eqn:He.
  - rewrite (Hmiss e eq_refl). unfold callGroq. split; intros ->; simpl.
    + rewrite <- fallback_keywords. split; [reflexivity |].
      split; [apply lookup_delete_eq |]. split; [| reflexivity].
      intros k Hk. by apply lookup_delete_ne.
    + split; [reflexivity |]. split; [apply lookup_insert_eq |].
      split; [| reflexivity].
      intros k Hk. rewrite lookup_insert_ne by done. by apply lookup_delete_ne.
  - unfold callGroq. split; intros ->; simpl.
    + rewrite <- fallback_keywords. by repeat split.
    + split; [reflexivity |]. split; [apply lookup_insert_eq |].
      split; [| reflexivity].
      intros k Hk. by rewrite lookup_insert_ne.
Qed.

(** C9, as amended, at the query ["clinical data"] while the cache holds a
    record for another query: with an outage of the service the keywords
    are the two words and nothing is cached; with an answer that is not
    JSON the keywords are empty and the record is cached. *)
Lemma understandQuery_fallback_witness :
  let down := {| latency := 40; outcome := rejected |} in
  let garbled := {| latency := 40; outcome := @answered UnderstandingJson None |} in
  let other := {| data := blankUnderstanding; timestamp := 10 |} in
  let w := {| understandQueryCache := {[ plainDigest "spm" := other ]};
              overviewCache := ∅; rankingCache := ∅; now := 1000; groqCalls := 0 |} in
  words "clinical data" = ["clinical"; "data"]
  /\ keywords (understandQuery plainDigest down "clinical data" w).1
     = ["clinical"; "data"]
  /\ understandQueryCache (understandQuery plainDigest down "clinical data" w).2
       !! getQueryCacheKey plainDigest "clinical data" = None
  /\ keywords (understandQuery plainDigest garbled "clinical data" w).1 = []
  /\ understandQueryCache (understandQuery plainDigest garbled "clinical data" w).2
       !! getQueryCacheKey plainDigest "clinical data" <> None.
Proof.
  intros down garbled other w. split; [reflexivity |].
  assert (Hmiss : misses understandQueryClass
                    (getQueryCacheKey plainDigest "clinical data") w).
  { intros e He. vm_compute in He. discriminate He. }
  destruct (proj1 (understandQuery_fallback plainDigest down "clinical data" w
                     eq_refl Hmiss) eq_refl) as (Hres & Hkey & _).
  destruct (proj2 (understandQuery_fallback plainDigest garbled "clinical data" w
                     eq_refl Hmiss) eq_refl) as (Hres' & Hkey' & _).
  split; [by rewrite Hres |]. split; [exact Hkey |].
  split; [by rewrite Hres' |]. by rewrite Hkey'.
Defined.

(** C9, refuted as stated: the service answers the query ["clinical data"]
    with a content that is not JSON.  The stage returns no keywords, not the
    two words of the query, and writes the record to the cache: the call
    made one second later is served from the cache, without keywords
    again. *)
Lemma understandQuery_malformed_answer_is_cached :
  let garbled := {| latency := 40; outcome := @answered UnderstandingJson None |} in
  let key := getQueryCacheKey plainDigest "clinical data" in
  let first := understandQuery plainDigest garbled "clinical data" (emptyWorld 5) in
  let second := understandQuery plainDigest garbled "clinical data"
                  (elapse 1000 first.2) in
  words "clinical data" = ["clinical"; "data"]
  /\ keywords first.1 = []
  /\ first.1 <> fallbackUnderstanding "clinical data"
  /\ understandQueryCache first.2 !! key = Some {| data := first.1; timestamp := 45 |}
  /\ groqCalls first.2 = 1%nat
  /\ groqCalls second.2 = 1%nat
  /\ keywords second.1 = [].
Proof.
  vm_compute. repeat split; try done.
Qed.

Lemma understandQuery_blank md5 svc query w :
  isBlank query = true -> understandQuery md5 svc query w = (blankUnderstanding, w).
Proof. intros Hb. unfold understandQuery. by rewrite Hb. Qed.

Lemma understandQuery_hit md5 svc query w e :
  isBlank query = false ->
  understandQueryCache w !! getQueryCacheKey md5 query = Some e ->
  fresh e CACHE_TTL.UNDERSTAND_QUERY (now w) = true ->
  understandQuery md5 svc query w = (data e, w).
Proof.
  intros Hb He Hf. unfold understandQuery, bind, getCachedUnderstanding.
  rewrite Hb, getCached_unfold. simpl. by rewrite He, Hf.
Qed.

Lemma understandQuery_answered md5 svc query w json :
  isBlank query = false ->
  misses understandQueryClass (getQueryCacheKey md5 query) w ->
  outcome svc = answered json ->
  let result := normalizeUnderstanding (default emptyUnderstandingJson json) in
  exists w',
    understandQuery md5 svc query w = (result, w')
    /\ understandQueryCache w' !! getQueryCacheKey md5 query
       = Some {| data := result; timestamp := now w + latency svc |}
    /\ now w' = now w + latency svc
    /\ groqCalls w' = S (groqCalls w).
Proof.
  intros Hb Hm Hans result. unfold understandQuery, bind, getCachedUnderstanding.
  rewrite Hb, getCached_unfold. unfold misses in Hm. simpl in *.
  destruct (understandQueryCache w !! getQueryCacheKey md5 query) as [e|] eqn:He.
  - rewrite (Hm e eq_refl). unfold callGroq. rewrite Hans. simpl.
    eexists. split; [reflexivity |]. simpl. by rewrite lookup_insert_eq.
  - unfold callGroq. rewrite Hans. simpl.
    eexists. split; [reflexivity |]. simpl. by rewrite lookup_insert_eq.
Qed.

(** C4, as amended.  When the service answers the first call (with any
    content, readable or not) or the first call needs no service at all, a
    second call for the same query made while the entry of the query is
    within its TTL issues no call of its own and returns the record of the
    first call: at most one service call for the two.  After the first call
    of a non-blank query the cache holds the returned record under the key
    of the query.  Nothing is promised after a failure of the service. *)
Theorem understandQuery_twice
    (md5 : string -> string) (svc1 svc2 : Service UnderstandingJson)
    (query : string) (d : Z) (w : World) :
  let first := understandQuery md5 svc1 query w in
  let second := understandQuery md5 svc2 query (elapse d first.2) in
  outcome svc1 <> rejected ->
  withinTTL understandQueryClass (getQueryCacheKey md5 query) (elapse d first.2) ->
  second.1 = first.1
  /\ groqCalls second.2 = groqCalls first.2
  /\ (groqCalls second.2 <= S (groqCalls w))%nat
  /\ (isBlank query = false ->
      exists e, understandQueryCache first.2 !! getQueryCacheKey md5 query = Some e
                /\ data e = first.1).
Proof.
  intros first second Hans Httl. subst second. revert Httl.
  set (key := getQueryCacheKey md5 query).
  assert (Hcases :
    (isBlank query = true /\ first = (blankUnderstanding, w))
    \/ (isBlank query = false /\ (groqCalls first.2 <= S (groqCalls w))%nat
        /\ exists e, understandQueryCache first.2 !! key = Some e
                     /\ data e = first.1)).
  { subst first. destruct (isBlank query) eqn:Hb.
    { left. split; [done |]. by apply understandQuery_blank. }
    right. split; [done |].
    destruct (understandQueryCache w !! key) as [e|] eqn:He.
    1: destruct (fresh e CACHE_TTL.UNDERSTAND_QUERY (now w)) eqn:Hf.
    - rewrite (understandQuery_hit _ _ _ _ e Hb He Hf). simpl.
      split; [lia |]. by exists e.
    - destruct (outcome svc1) as [|json] eqn:Ho; [done |].
      destruct (understandQuery_answered md5 svc1 query w json Hb) as (w' & -> & Hk & _ & Hc); [| done |].
      { intros e' He'. unfold key in He. simpl in *. congruence. }
      simpl. split; [lia |]. by eexists.
    - destruct (outcome svc1) as [|json] eqn:Ho; [done |].
      destruct (understandQuery_answered md5 svc1 query w json Hb) as (w' & -> & Hk & _ & Hc); [| done |].
      { intros e' He'. unfold key in He. simpl in *. congruence. }
      simpl. split; [lia |]. by eexists. }
  destruct Hcases as [(Hb & ->) | (Hb & Hcalls & e & He & Hdata)].
  - intros _. rewrite understandQuery_blank by done. simpl.
    split; [done |]. split; [done |]. split; [lia |]. congruence.
  - intros Httl. specialize (Httl e He). simpl in Httl.
    rewrite (understandQuery_hit md5 svc2 query (elapse d first.2) e Hb He Httl).
    simpl.
    split; [done |]. split; [done |]. split; [done |]. intros _. by exists e.
Qed.

(** C4, as amended, at the query ["spm"]: the service answers with content
    that is not JSON, and the second call comes one second later. *)
Lemma understandQuery_twice_witness :
  let svc1 := {| latency := 40; outcome := answered None |} in
  let svc2 := {| latency := 40; outcome := rejected |} in
  let first := understandQuery plainDigest svc1 "spm" (emptyWorld 5) in
  let second := understandQuery plainDigest svc2 "spm" (elapse 1000 first.2) in
  outcome svc1 <> rejected
  /\ withinTTL understandQueryClass (getQueryCacheKey plainDigest "spm")
       (elapse 1000 first.2)
  /\ second.1 = first.1
  /\ groqCalls second.2 = 1%nat.
Proof.
  intros svc1 svc2 first second.
  assert (H1 : outcome svc1 <> rejected) by discriminate.
  assert (H2 : withinTTL understandQueryClass (getQueryCacheKey plainDigest "spm")
                 (elapse 1000 first.2)).
  { intros e He. vm_compute in He. injection He as <-. reflexivity. }
  destruct (understandQuery_twice plainDigest svc1 svc2 "spm" 1000 (emptyWorld 5) H1 H2)
    as (Hsame & Hcalls & _).
  split; [exact H1 |]. split; [exact H2 |]. split; [exact Hsame |].
  fold first second in Hcalls. rewrite Hcalls. reflexivity.
Defined.

(** C4, refuted as stated: the service fails on the first call for ["spm"]
    and answers the second one, made one second later, well within the 30
    minutes of the TTL.  The service is called twice and the two records
    differ. *)
Lemma understandQuery_failure_not_idempotent :
  let svc1 := {| latency := 40; outcome := rejected |} in
  let svc2 := {| latency := 40;
                 outcome := answered (Some
                   {| j_intent := Some "category-only"; j_category := Some "blogs";
                      j_keywords := Some []; j_correctedQuery := None;
                      j_expandedTerms := None; j_synonyms := None;
                      j_didYouMean := None |}) |} in
  let first := understandQuery plainDigest svc1 "spm" (emptyWorld 5) in
  let second := understandQuery plainDigest svc2 "spm" (elapse 1000 first.2) in
  now (elapse 1000 first.2) - now first.2 < CACHE_TTL.UNDERSTAND_QUERY
  /\ groqCalls second.2 = 2%nat
  /\ ~ (groqCalls second.2 <= S (groqCalls (emptyWorld 5)))%nat
  /\ intent first.1 = "search" /\ intent second.1 = "category-only"
  /\ second.1 <> first.1.
Proof.
  vm_compute. repeat split; try done. lia.
Qed.

(** ** Properties of the ranker *)

Lemma rankResults_hit md5 svc query results intent w e :
  results <> [] ->
  rankingCache w !! getResultsCacheKey md5 query results = Some e ->
  fresh e CACHE_TTL.RANKING (now w) = true ->
  rankResults md5 svc query results intent w = (data e, w).
Proof.
  intros Hne He Hf. unfold rankResults, bind, getCachedRanking.
  destruct results as [|r rs]; [done |].
  change (length (r :: rs) =? 0)%nat with false. cbv beta iota.
  rewrite getCached_unfold. simpl cmap. simpl ttl. by rewrite He, Hf.
Qed.

(** What the ranker does on a cache miss, whatever the service says. *)
Lemma rankResults_miss md5 svc query results intent w :
  results <> [] ->
  misses rankingClass (getResultsCacheKey md5 query results) w ->
  let key := getResultsCacheKey md5 query results in
  let res := rankResults md5 svc query results intent w in
  let asked := (length results <=? 20)%nat in
  let idxs := match outcome svc with
              | answered json => default [] (json ≫= rankedIndices)
              | rejected => []
              end in
  res.1 = (if asked && (length idxs =? length results)%nat
           then pick results idxs else results)
  /\ groqCalls res.2 = (if asked then S (groqCalls w) else groqCalls w)
  /\ (outcome svc <> rejected \/ asked = false ->
      exists e, rankingCache res.2 !! key = Some e /\ data e = res.1
                /\ timestamp e = now res.2)
  /\ (outcome svc = rejected -> asked = true -> rankingCache res.2 !! key = None).
Proof.
  intros Hne Hm key res asked idxs. subst res.
  unfold rankResults, bind, getCachedRanking.
  destruct results as [|r rs]; [done |].
  change (length (r :: rs) =? 0)%nat with false. cbv beta iota.
  rewrite getCached_unfold. fold key asked. unfold misses in Hm. fold key in Hm.
  simpl cmap in *. simpl ttl in *.
  destruct (rankingCache w !! key) as [e|] eqn:He;
    [rewrite (Hm e eq_refl) |]; destruct asked eqn:Hasked.
  all: unfold callGroq; subst idxs.
  all: try destruct (outcome svc) as [|json].
  all: simpl.
  all: try destruct (length (default [] (json ≫= rankedIndices)) =? S (length rs))%nat.
  all: simpl; fold key.
  all: split; [reflexivity |]; split; [reflexivity |]; split.
  all: try (intros [Hc | Hc]; try done; rewrite lookup_insert_eq; by eexists).
  all: try (intros H1 H2; try done; by rewrite ?lookup_delete_eq).
Qed.

Lemma at_index_seqZ (results : list SearchResult) (i : nat) :
  at_index results (Z.of_nat i) = results !! i.
Proof.
  unfold at_index. destruct (Z.ltb_spec (Z.of_nat i) 0); [lia |]. by rewrite Nat2Z.id.
Qed.

Lemma pick_all (results : list SearchResult) :
  pick results (Z.of_nat <$> seq 0 (length results)) = results.
Proof.
  unfold pick. induction results as [|r rs IH] using rev_ind; [done |].
  rewrite length_app. change (length [r]) with 1%nat.
  rewrite Nat.add_1_r, seq_S, fmap_app, omap_app. simpl.
  rewrite at_index_seqZ, lookup_app_r, Nat.sub_diag by lia. simpl.
  f_equal. etransitivity; [| exact IH]. apply list_omap_ext.
  apply Forall2_fmap, Forall_Forall2_diag, Forall_forall.
  intros i Hi%elem_of_seq. rewrite !at_index_seqZ. apply lookup_app_l. lia.
Qed.

(** The service's list is a reordering of [0..n-1]: the ranked list is a
    permutation of the results. *)
Lemma pick_permutation (results : list SearchResult) (idxs : list Z) :
  idxs ≡ₚ (Z.of_nat <$> seq 0 (length results)) -> pick results idxs ≡ₚ results.
Proof.
  intros Hp. rewrite <- (pick_all results) at 2. unfold pick. by rewrite Hp.
Qed.

(** C1, at the failing inputs.  Two results [a], [b], no cached ranking, and
    the service answers with a list of the right length: for [[0, 0]] the
    ranker returns [a] twice and drops [b]; for [[0, 7]] it returns [a]
    alone.  Neither is a permutation of the input, and neither answer is
    discarded in favour of the original order. *)
Theorem rankResults_accepts_any_list_of_length_n (md5 : string -> string) :
  let a := page_of "a" "Strategic Portfolio Management" in
  let b := page_of "b" "Careers" in
  let svc idxs := {| latency := 40;
                     outcome := answered (Some {| rankedIndices := Some idxs |}) |} in
  let rank idxs := (rankResults md5 (svc idxs) "spm" [a; b] "search" (emptyWorld 5)).1 in
  rank [0; 0] = [a; a] /\ ~ rank [0; 0] ≡ₚ [a; b]
  /\ rank [0; 7] = [a] /\ ~ rank [0; 7] ≡ₚ [a; b]
  /\ rank [1; 0] = [b; a].
Proof.
  intros a b svc rank.
  assert (Hrank : forall idxs, length idxs = 2%nat -> rank idxs = pick [a; b] idxs).
  { intros idxs Hlen. subst rank. cbv beta.
    destruct (rankResults_miss md5 (svc idxs) "spm" [a; b] "search" (emptyWorld 5))
      as (-> & _); [done | intros e He; simpl in He; by rewrite lookup_empty in He |].
    simpl. by rewrite Hlen. }
  rewrite !Hrank by done.
  split; [reflexivity |]. split.
  { intros Hp. assert (Hb : b ∈ pick [a; b] [0; 0]) by (rewrite Hp; set_solver).
    vm_compute in Hb. set_unfold in Hb. destruct_or?; done. }
  split; [reflexivity |]. split; [| reflexivity].
  intros Hp%Permutation_length. done.
Qed.

(** ** Properties of the result cache key *)

(** C10, as amended.  The key of the ranking (and overview) cache is the
    digest of the normalized query and the identities ([id], or [url] when
    the id is empty) of the first three results only.  Two candidate lists
    that agree on these three identities have the same key for a query, and
    a ranking cached for one of them is returned, while within its TTL, as
    the ranking of the other, without a call to the service. *)
Theorem results_key_first_three
    (md5 : string -> string) (query : string) (A B : list SearchResult)
    (Hsame : map identity (take 3 A) = map identity (take 3 B)) :
  getResultsCacheKey md5 query A
  = md5 (JS.trim (JS.toLowerCase query) +:+ "|"
         +:+ JS.join "|" (map identity (take 3 A)))
  /\ getResultsCacheKey md5 query A = getResultsCacheKey md5 query B
  /\ (forall svc intent w e,
        B <> [] ->
        rankingCache w !! getResultsCacheKey md5 query A = Some e ->
        fresh e CACHE_TTL.RANKING (now w) = true ->
        rankResults md5 svc query B intent w = (data e, w)).
Proof.
  assert (Hkey : getResultsCacheKey md5 query A = getResultsCacheKey md5 query B).
  { unfold getResultsCacheKey. by rewrite Hsame. }
  split; [reflexivity |]. split; [exact Hkey |].
  intros svc intent w e HB He Hf. rewrite Hkey in He.
  by apply rankResults_hit.
Qed.

(** C10, as amended, at two lists of four results that differ in the last. *)
Lemma results_key_first_three_witness :
  let A := [page_of "a" "A"; page_of "b" "B"; page_of "c" "C"; page_of "d" "D"] in
  let B := [page_of "a" "A"; page_of "b" "B"; page_of "c" "C"; page_of "e" "E"] in
  map identity (take 3 A) = map identity (take 3 B)
  /\ getResultsCacheKey plainDigest "spm" A = getResultsCacheKey plainDigest "spm" B.
Proof.
  intros A B. split; [reflexivity |].
  apply (results_key_first_three plainDigest "spm" A B eq_refl).
Defined.

(** C10, refuted as stated: the candidate lists [A] and [B] for the query
    ["spm"] differ in their fourth result.  [A] is ranked first and the
    service reverses it; one second later [B] is ranked: the cache answers
    for [B] with the ranking of [A], which contains a result that is not in
    [B], and the service is not asked again. *)
Lemma ranking_cache_hit_across_result_lists :
  let d := page_of "d" "D" in
  let A := [page_of "a" "A"; page_of "b" "B"; page_of "c" "C"; d] in
  let B := [page_of "a" "A"; page_of "b" "B"; page_of "c" "C"; page_of "e" "E"] in
  let svcA := {| latency := 40;
                 outcome := answered (Some {| rankedIndices := Some [3; 2; 1; 0] |}) |} in
  let svcB := {| latency := 40;
                 outcome := answered (Some {| rankedIndices := Some [0; 1; 2; 3] |}) |} in
  let first := rankResults plainDigest svcA "spm" A "search" (emptyWorld 5) in
  let second := rankResults plainDigest svcB "spm" B "search" (elapse 1000 first.2) in
  A <> B
  /\ getResultsCacheKey plainDigest "spm" A = getResultsCacheKey plainDigest "spm" B
  /\ second.1 = first.1
  /\ second.1 = [d; page_of "c" "C"; page_of "b" "B"; page_of "a" "A"]
  /\ (d ∉ B)
  /\ groqCalls second.2 = groqCalls first.2.
Proof.
  intros d A B svcA svcB first second.
  split; [discriminate |]. split; [reflexivity |].
  split; [by vm_compute |]. split; [by vm_compute |].
  split; [| by vm_compute].
  subst B d. set_unfold. intros H. destruct_or?; done.
Qed.

(** ** Properties of the overview synthesizer *)

Lemma generateOverview_hit md5 svc query topResults intent w e s :
  JS.nonEmpty query = true -> topResults <> [] ->
  overviewCache w !! getResultsCacheKey md5 query topResults = Some e ->
  fresh e CACHE_TTL.OVERVIEW (now w) = true ->
  data e = Some s ->
  generateOverview md5 svc query topResults intent w = (Some s, w).
Proof.
  intros Hq Hne He Hf Hd. unfold generateOverview, bind, getCachedOverview, bind.
  rewrite Hq. destruct topResults as [|r rs]; [done |].
  change (negb true || (length (r :: rs) =? 0)%nat) with false. cbv beta iota.
  rewrite getCached_unfold. simpl cmap. simpl ttl. by rewrite He, Hf, Hd.
Qed.

(** C5, as amended.  For a non-empty query and a non-empty result list: on
    a cache hit with a non-null value the synthesizer returns that value
    as-is, without calling the service and without touching the state; and
    when there is no usable entry and the service fails it returns null, no
    error, and writes nothing to the overview cache (the failure is not
    cached: no entry appears under the key, so a later request asks the
    service again). *)
Theorem generateOverview_hit_and_failure
    (md5 : string -> string) (svc : Service string) (query : string)
    (topResults : list SearchResult) (intent : string) (w : World)
    (Hquery : JS.nonEmpty query = true) (Hresults : topResults <> []) :
  let key := getResultsCacheKey md5 query topResults in
  let res := generateOverview md5 svc query topResults intent w in
  (forall e s,
     overviewCache w !! key = Some e ->
     fresh e CACHE_TTL.OVERVIEW (now w) = true ->
     data e = Some s ->
     res = (Some s, w))
  /\ (outcome svc = rejected ->
      misses overviewClass key w ->
      res.1 = None
      /\ groqCalls res.2 = S (groqCalls w)
      /\ overviewCache res.2 !! key = None
      /\ overviewCache res.2 ⊆ overviewCache w).
Proof.
  intros key res. split.
  - intros e s He Hf Hd. by apply generateOverview_hit with e.
  - intros Hfail Hm. subst res.
    unfold generateOverview, bind, getCachedOverview, bind.
    rewrite Hquery. destruct topResults as [|r rs]; [done |].
    change (negb true || (length (r :: rs) =? 0)%nat) with false. cbv beta iota.
    rewrite getCached_unfold. fold key. unfold misses in Hm.
    simpl cmap in *. simpl ttl in *.
    destruct (overviewCache w !! key) as [e|] eqn:He.
    + rewrite (Hm e eq_refl). unfold callGroq. rewrite Hfail. simpl.
      split; [done |]. split; [done |].
      split; [apply lookup_delete_eq | apply delete_subseteq].
    + unfold callGroq. rewrite Hfail. simpl. by repeat split.
Qed.

(** C5, as amended, at the query ["spm"]: once with a cached overview, once
    with an empty cache and an outage. *)
Lemma generateOverview_hit_and_failure_witness :
  let top := [page_of "a" "Strategic Portfolio Management"] in
  let key := getResultsCacheKey plainDigest "spm" top in
  let e := {| data := Some "i2e offers SPM services."; timestamp := 10 |} in
  let w := {| understandQueryCache := ∅; overviewCache := {[ key := e ]};
              rankingCache := ∅; now := 1000; groqCalls := 0 |} in
  let down := {| latency := 40; outcome := rejected |} in
  JS.nonEmpty "spm" = true /\ top <> []
  /\ generateOverview plainDigest down "spm" top "search" w
     = (Some "i2e offers SPM services.", w)
  /\ misses overviewClass key (emptyWorld 5)
  /\ (generateOverview plainDigest down "spm" top "search" (emptyWorld 5)).1 = None.
Proof.
  intros top key e w down.
  assert (Hm : misses overviewClass key (emptyWorld 5)).
  { intros e' He'. simpl in He'. by rewrite lookup_empty in He'. }
  split; [reflexivity |]. split; [discriminate |]. split; [| split; [exact Hm |]].
  - apply (proj1 (generateOverview_hit_and_failure plainDigest down "spm" top
                    "search" w eq_refl ltac:(discriminate)) e _).
    + apply lookup_singleton_eq.
    + reflexivity.
    + reflexivity.
  - apply (proj2 (generateOverview_hit_and_failure plainDigest down "spm" top
                    "search" (emptyWorld 5) eq_refl ltac:(discriminate))
             eq_refl Hm).
Defined.

(** C5, refuted as stated: with an empty cache and an outage of the service
    the synthesizer returns null but caches nothing: afterwards there is no
    entry under the key, and the next request, one second later, calls the
    service again. *)
Lemma generateOverview_failure_not_cached :
  let top := [page_of "a" "Strategic Portfolio Management"] in
  let key := getResultsCacheKey plainDigest "spm" top in
  let down := {| latency := 40; outcome := rejected |} in
  let first := generateOverview plainDigest down "spm" top "search" (emptyWorld 5) in
  let second := generateOverview plainDigest down "spm" top "search" (elapse 1000 first.2) in
  first.1 = None
  /\ overviewCache first.2 !! key = None
  /\ ~ (exists e, overviewCache first.2 !! key = Some e /\ data e = None)
  /\ groqCalls first.2 = 1%nat
  /\ groqCalls second.2 = 2%nat.
Proof.
  vm_compute. repeat split; try done. by intros (e & He & _).
Qed.

(** The slip behind the first half of C5: a fresh entry whose value is null
    reads as a miss, so the service is called again and its answer replaces
    the cached null. *)
Lemma generateOverview_cached_null_recomputed :
  let top := [page_of "a" "Strategic Portfolio Management"] in
  let key := getResultsCacheKey plainDigest "spm" top in
  let w := {| understandQueryCache := ∅;
              overviewCache := {[ key := {| data := None; timestamp := 10 |} ]};
              rankingCache := ∅; now := 1000; groqCalls := 0 |} in
  let svc := {| latency := 40; outcome := answered (Some "An overview.") |} in
  let res := generateOverview plainDigest svc "spm" top "search" w in
  fresh {| data := @None string; timestamp := 10 |} CACHE_TTL.OVERVIEW (now w) = true
  /\ res.1 = Some "An overview." /\ groqCalls res.2 = 1%nat.
Proof. by vm_compute. Qed.

(** ** Properties of the orchestrator *)

Lemma understandQuery_overviewCache md5 svc query w :
  overviewCache (understandQuery md5 svc query w).2 = overviewCache w.
Proof.
  unfold understandQuery, bind, getCachedUnderstanding.
  destruct (isBlank query); [done |]. rewrite getCached_unfold. simpl.
  unfold callGroq. repeat case_match; simplify_eq; done.
Qed.

Lemma rankResults_overviewCache md5 svc query results intent w :
  overviewCache (rankResults md5 svc query results intent w).2 = overviewCache w.
Proof.
  unfold rankResults, bind, getCachedRanking.
  destruct (length results =? 0)%nat; [done |]. rewrite getCached_unfold. simpl.
  unfold callGroq. repeat case_match; simplify_eq; done.
Qed.

Lemma understandQuery_calls md5 svc query w :
  (groqCalls w <= groqCalls (understandQuery md5 svc query w).2 <= S (groqCalls w))%nat.
Proof.
  unfold understandQuery, bind, getCachedUnderstanding.
  destruct (isBlank query); [simpl; lia |]. rewrite getCached_unfold. simpl.
  unfold callGroq. repeat case_match; simplify_eq; simpl; lia.
Qed.

Lemma rankResults_calls md5 svc query results intent w :
  (groqCalls w <= groqCalls (rankResults md5 svc query results intent w).2
   <= S (groqCalls w))%nat.
Proof.
  unfold rankResults, bind, getCachedRanking.
  destruct (length results =? 0)%nat; [simpl; lia |]. rewrite getCached_unfold. simpl.
  unfold callGroq. repeat case_match; simplify_eq; simpl; lia.
Qed.

(** C6, as amended.  For a request whose page is not 1 the handler answers
    with [overview] null (or with the failure body, which has no overview),
    and it neither calls the overview service nor touches the overview
    cache: the overview cache is as it was, the request makes at most the
    two calls of understanding and ranking, and the body and the state it
    ends in are the same whatever the overview service is or would answer.
    [didYouMean] of the assembled response does not depend on the page: it
    is [understanding.didYouMean || understanding.correctedQuery || null].
    It is the results page that discards both for a page other than 1: what
    it stores and shows is null for [overview] and for [didYouMean],
    whatever the response says. *)
Theorem overview_only_on_first_page
    (md5 : string -> string) (ext : Externals) (query categ : string)
    (rawPage rawPageSize : option Z) (w : World)
    (Hpage : intOr rawPage 1 <> 1) :
  let res := search md5 ext query categ rawPage rawPageSize w in
  let u := (understandQuery md5 (understandService ext) query w).1 in
  overviewOf res.1 = None
  /\ overviewCache res.2 = overviewCache w
  /\ (groqCalls res.2 <= groqCalls w + 2)%nat
  /\ (forall other : Service string,
        search md5 {| understandService := understandService ext;
                      esSearch := esSearch ext;
                      rankService := rankService ext;
                      overviewService := other;
                      esAggregation := esAggregation ext |}
          query categ rawPage rawPageSize w = res)
  /\ (forall r, res.1 = Found r ->
        resp_overview r = None
        /\ resp_page r = intOr rawPage 1
        /\ resp_didYouMean r = JS.or (JS.or (didYouMean u) (correctedQuery u)) None)
  /\ (forall body, keptOverview (intOr rawPage 1) body = None
                   /\ keptDidYouMean (intOr rawPage 1) body = None).
Proof.
  intros res u.
  assert (Hp : (intOr rawPage 1 =? 1) = false) by by apply Z.eqb_neq.
  assert (Hkept : forall body, keptOverview (intOr rawPage 1) body = None
                               /\ keptDidYouMean (intOr rawPage 1) body = None).
  { intros body. unfold keptOverview, keptDidYouMean. by rewrite Hp. }
  assert (Hother : forall other : Service string,
            search md5 {| understandService := understandService ext;
                          esSearch := esSearch ext;
                          rankService := rankService ext;
                          overviewService := other;
                          esAggregation := esAggregation ext |}
              query categ rawPage rawPageSize w = res).
  { intros other. subst res. unfold search. cbn [understandService esSearch
      rankService overviewService esAggregation]. by rewrite Hp. }
  subst u. assert (Hres : res = search md5 ext query categ rawPage rawPageSize w)
    by reflexivity.
  clearbody res. unfold search in Hres.
  destruct (negb (JS.nonEmpty query) && negb (JS.nonEmpty categ)).
  { subst res. split; [done |]. split; [done |]. split; [simpl; lia |].
    split; [exact Hother |]. split; [| exact Hkept]. by intros r [=]. }
  unfold bind at 1 in Hres.
  pose proof (understandQuery_overviewCache md5 (understandService ext) query w) as Hu.
  pose proof (understandQuery_calls md5 (understandService ext) query w) as Hcu.
  destruct (understandQuery md5 (understandService ext) query w) as [u w1].
  simpl in Hu, Hcu. simpl fst.
  destruct (esSearch ext _ _ _) as [[hits total]|].
  2: { subst res. split; [done |]. split; [done |]. split; [simpl; lia |].
       split; [exact Hother |]. split; [| exact Hkept]. by intros r [=]. }
  unfold bind at 1 in Hres.
  set (ranking := if (0 <? length hits)%nat && (0 <? String.length (JS.trim query))%nat
                  then rankResults md5 (rankService ext) query hits (intent u)
                  else ret hits) in Hres.
  assert (Hr : overviewCache (ranking w1).2 = overviewCache w1
               /\ (groqCalls (ranking w1).2 <= S (groqCalls w1))%nat).
  { subst ranking. destruct (_ && _).
    - split; [apply rankResults_overviewCache | apply rankResults_calls].
    - split; [done | simpl; lia]. }
  destruct (ranking w1) as [ranked w2]. simpl in Hr. destruct Hr as [Hr Hcr].
  rewrite Hp in Hres. simpl in Hres. subst res. simpl.
  split; [done |]. split; [congruence |]. split; [lia |].
  split; [exact Hother |]. split; [| exact Hkept].
  intros r [= <-]. done.
Qed.

(** C6, as amended, at the query ["clincal"], for which the engine has one
    hit and the overview service is up: page 1 is answered with an overview,
    after three calls of the completion service, and the overview is cached.
    Page 2, asked for one second later in that state, has no overview. *)
Lemma overview_only_on_first_page_witness :
  let ext := {| understandService := {| latency := 40; outcome := rejected |};
                esSearch := fun _ _ _ => Some ([page_of "k" "Clinical Data Management"], 11);
                rankService :=
                  {| latency := 40;
                     outcome := answered (Some {| rankedIndices := Some [0] |}) |};
                overviewService :=
                  {| latency := 40; outcome := answered (Some "Clinical data at i2e.") |};
                esAggregation := fun _ => None |} in
  let first := search plainDigest ext "clincal" EmptyString (Some 1) (Some 10)
                 (emptyWorld 5) in
  let second := search plainDigest ext "clincal" EmptyString (Some 2) (Some 10)
                  (elapse 1000 first.2) in
  intOr (Some 2) 1 <> 1
  /\ overviewOf first.1 = Some "Clinical data at i2e."
  /\ groqCalls first.2 = 3%nat
  /\ overviewOf second.1 = None
  /\ (groqCalls second.2 <= groqCalls (elapse 1000 first.2) + 2)%nat.
Proof.
  intros ext first second.
  assert (Hp : intOr (Some 2) 1 <> 1) by discriminate.
  split; [exact Hp |]. split; [by vm_compute |]. split; [by vm_compute |].
  destruct (overview_only_on_first_page plainDigest ext "clincal" EmptyString
              (Some 2) (Some 10) (elapse 1000 first.2) Hp) as (Hov & _ & Hcalls & _).
  split; [exact Hov | exact Hcalls].
Defined.

(** C6, refuted as stated: page 2 of the query ["clincal"], for which the
    service suggests ["clinical"]: the assembled response is for page 2, its
    overview is null, and its [didYouMean] is ["clinical"]. *)
Lemma didYouMean_on_second_page :
  let ext := {| understandService :=
                  {| latency := 40;
                     outcome := answered (Some
                       {| j_intent := Some "search"; j_category := None;
                          j_keywords := Some ["clinical"];
                          j_correctedQuery := Some "clinical";
                          j_expandedTerms := None; j_synonyms := None;
                          j_didYouMean := Some "clinical" |}) |};
                esSearch := fun _ _ _ => Some ([page_of "k" "Clinical Data Management"], 11);
                rankService := {| latency := 40; outcome := rejected |};
                overviewService := {| latency := 40; outcome := rejected |};
                esAggregation := fun _ => None |} in
  let body := (search plainDigest ext "clincal" EmptyString (Some 2) (Some 10)
                 (emptyWorld 5)).1 in
  exists r, body = Found r
    /\ resp_page r = 2
    /\ resp_overview r = None
    /\ resp_didYouMean r = Some "clinical"
    /\ didYouMeanOf body <> None.
Proof.
  eexists. split; [by vm_compute |]. by vm_compute.
Qed.

(** An explicit category filter wins, in the handler and in the builder. *)
Lemma explicit_filter_precedence (u : Understanding) (categ : string) :
  JS.nonEmpty categ = true ->
  targetCategory categ u = Some categ
  /\ builderCategory u (targetCategory categ u) = Some categ.
Proof.
  intros Hc. destruct categ as [|c s]; [discriminate Hc |]. by split.
Qed.

(** Without a filter the handler resolves no category unless the intent is
    category-keyword or category-only ... *)
Lemma handler_gates_detected_category (u : Understanding) :
  shouldUseDetectedCategory u = false -> targetCategory EmptyString u = None.
Proof. intros Hs. unfold targetCategory, JS.or. simpl. by rewrite Hs. Qed.

(** ... but the builder, given no filter, falls back on the detected
    category of the record, whatever the intent. *)
Lemma builder_falls_back_on_detected_category (u : Understanding) :
  builderCategory u None = category u.
Proof. reflexivity. Qed.

(** C2, at the failing input.  The request is [GET /search?q=ppm] with no
    category filter, and the service classifies the query as a plain search
    but reports the category ["blogs"].  The handler resolves no target
    category, yet the builder filters on ["blogs"]: the query sent to the
    engine carries the mandatory clause [category = blogs]. *)
Theorem search_intent_still_filters_on_detected_category (md5 : string -> string) :
  let svc := {| latency := 40;
                outcome := answered (Some
                  {| j_intent := Some "search"; j_category := Some "blogs";
                     j_keywords := Some ["ppm"]; j_correctedQuery := None;
                     j_expandedTerms := None; j_synonyms := None;
                     j_didYouMean := None |}) |} in
  let u := (understandQuery md5 svc "ppm" (emptyWorld 5)).1 in
  intent u = "search"
  /\ category u = Some "blogs"
  /\ targetCategory EmptyString u = None
  /\ builderCategory u (targetCategory EmptyString u) = Some "blogs"
  /\ must (esQuery EmptyString u) = Some [term Category "blogs"].
Proof.
  intros svc u. subst u.
  assert (Hm : misses understandQueryClass (getQueryCacheKey md5 "ppm") (emptyWorld 5)).
  { intros e He. simpl in He. by rewrite lookup_empty in He. }
  destruct (understandQuery_answered md5 svc "ppm" (emptyWorld 5) _ eq_refl Hm eq_refl)
    as (w' & -> & _).
  by vm_compute.
Qed.

(** C8, as amended, at the record of the query ["ppm ab"]: the prefix clause
    of ["ppm"] is there, and searches for a text of length 3. *)
Lemma prefix_only_for_long_terms_witness :
  let u := {| intent := "search"; category := None; keywords := ["ppm"; "ab"];
              correctedQuery := None; expandedTerms := []; synonyms := [];
              didYouMean := None |} in
  prefix Title "ppm" 3 ∈ shouldClauses u
  /\ isPrefixClause (prefix Title "ppm" 3) = true
  /\ exists s, textOf (prefix Title "ppm" 3) = Some s /\ (3 <= String.length s)%nat.
Proof.
  intros u.
  assert (Hin : prefix Title "ppm" 3 ∈ shouldClauses u).
  { vm_compute. set_solver. }
  split; [exact Hin |]. split; [reflexivity |].
  exact (proj1 (prefix_only_for_long_terms u) (prefix Title "ppm" 3) Hin eq_refl).
Defined.

(** X23.  What is right about the ranker: with no usable cache entry, its result
    is the input itself on every fallback path (more than 20 results, a
    failure of the service, an answer of another length), and a permutation
    of the input when the service's list is a reordering of [0..n-1]. *)
Lemma rankResults_fallback_and_valid_answer
    (md5 : string -> string) (svc : Service RankingJson) (query : string)
    (results : list SearchResult) (intent : string) (w : World) :
  results <> [] ->
  misses rankingClass (getResultsCacheKey md5 query results) w ->
  let res := (rankResults md5 svc query results intent w).1 in
  ((20 < length results)%nat -> res = results)
  /\ (outcome svc = rejected -> res = results)
  /\ (forall json, outcome svc = answered json ->
        length (default [] (json ≫= rankedIndices)) <> length results ->
        res = results)
  /\ (forall idxs, outcome svc = answered (Some {| rankedIndices := Some idxs |}) ->
        idxs ≡ₚ (Z.of_nat <$> seq 0 (length results)) ->
        res ≡ₚ results).
Proof.
  intros Hne Hm res. subst res.
  destruct (rankResults_miss md5 svc query results intent w Hne Hm) as (-> & _).
  split; [| split; [| split]].
  - intros Hlen. apply Nat.leb_gt in Hlen. by rewrite Hlen.
  - intros ->. destruct results; [done |]. simpl. by rewrite andb_false_r.
  - intros json -> Hlen. apply Nat.eqb_neq in Hlen. rewrite Hlen.
    by rewrite andb_false_r.
  - intros idxs -> Hp. simpl.
    destruct (_ && _); [by apply pick_permutation | done].
Qed.

(** ** More on the cache keys *)

Lemma lowerChar_idemp (c : ascii) : JS.lowerChar (JS.lowerChar c) = JS.lowerChar c.
Proof. destruct c as [[] [] [] [] [] [] [] []]; reflexivity. Qed.

Lemma lowerChar_isWhiteSpace (c : ascii) :
  JS.isWhiteSpace (JS.lowerChar c) = JS.isWhiteSpace c.
Proof. destruct c as [[] [] [] [] [] [] [] []]; reflexivity. Qed.

Lemma toLowerCase_idemp (s : string) :
  JS.toLowerCase (JS.toLowerCase s) = JS.toLowerCase s.
Proof. induction s as [|c s IH]; simpl; [done |]. by rewrite lowerChar_idemp, IH. Qed.

Lemma toLowerCase_trimStart (s : string) :
  JS.toLowerCase (JS.trimStart s) = JS.trimStart (JS.toLowerCase s).
Proof.
  induction s as [|c s IH]; simpl; [done |].
  rewrite lowerChar_isWhiteSpace. by destruct (JS.isWhiteSpace c).
Qed.

Lemma toLowerCase_trimEnd (s : string) :
  JS.toLowerCase (JS.trimEnd s) = JS.trimEnd (JS.toLowerCase s).
Proof.
  induction s as [|c s IH]; simpl; [done |].
  rewrite <- IH, lowerChar_isWhiteSpace.
  destruct (JS.trimEnd s); simpl; [by destruct (JS.isWhiteSpace c) | done].
Qed.

Lemma toLowerCase_trim (s : string) :
  JS.toLowerCase (JS.trim s) = JS.trim (JS.toLowerCase s).
Proof. unfold JS.trim. by rewrite toLowerCase_trimEnd, toLowerCase_trimStart. Qed.

Lemma trimEnd_idemp (s : string) : JS.trimEnd (JS.trimEnd s) = JS.trimEnd s.
Proof.
  induction s as [|c s IH]; simpl; [done |].
  destruct (JS.trimEnd s) as [|a t] eqn:Ht.
  - destruct (JS.isWhiteSpace c) eqn:Hc; simpl; [done |]. by rewrite Hc.
  - simpl. simpl in IH. by rewrite IH.
Qed.

(** A string that does not start with white space. *)
Lemma trimStart_fixed (s : string) :
  match s with String c _ => JS.isWhiteSpace c = false | EmptyString => True end ->
  JS.trimStart s = s.
Proof. destruct s as [|c s]; simpl; [done |]. by intros ->. Qed.

Lemma trimStart_head (s : string) :
  match JS.trimStart s with
  | String c _ => JS.isWhiteSpace c = false
  | EmptyString => True
  end.
Proof.
  induction s as [|c s IH]; simpl; [done |].
  destruct (JS.isWhiteSpace c) eqn:Hc; [done |]. exact Hc.
Qed.

Lemma trimEnd_head (s : string) :
  match s with String c _ => JS.isWhiteSpace c = false | EmptyString => True end ->
  match JS.trimEnd s with
  | String c _ => JS.isWhiteSpace c = false
  | EmptyString => True
  end.
Proof.
  destruct s as [|c s]; simpl; [done |]. intros Hc.
  destruct (JS.trimEnd s); [by rewrite Hc | done].
Qed.

Lemma trim_idemp (s : string) : JS.trim (JS.trim s) = JS.trim s.
Proof.
  unfold JS.trim.
  rewrite (trimStart_fixed (JS.trimEnd (JS.trimStart s))).
  - apply trimEnd_idemp.
  - apply trimEnd_head, trimStart_head.
Qed.

Lemma trim_length_toLowerCase (s : string) :
  String.length (JS.trim (JS.toLowerCase s)) = String.length (JS.trim s).
Proof. by rewrite <- toLowerCase_trim, toLowerCase_length. Qed.

Lemma isBlank_normalized (q1 q2 : string) :
  JS.trim (JS.toLowerCase q1) = JS.trim (JS.toLowerCase q2) ->
  isBlank q1 = false -> isBlank q2 = false.
Proof.
  unfold isBlank. intros Hn [_ H1]%orb_false_elim.
  assert (H2 : (String.length (JS.trim q2) =? 0)%nat = false).
  { by rewrite <- trim_length_toLowerCase, <- Hn, trim_length_toLowerCase. }
  rewrite H2, orb_false_r. destruct q2; [done | done].
Qed.

(** X1.  The query cache key does not see the case of the query nor the
    white space around it: lower-casing or trimming a query leaves its key
    unchanged.  So once the service has answered for a non-blank query, a
    call for any query with the same normalization, made within the TTL, is
    served the same record from the cache without a call to the service. *)
Theorem query_key_ignores_case_and_padding
    (md5 : string -> string) (svc1 svc2 : Service UnderstandingJson)
    (q1 q2 : string) (json : option UnderstandingJson) (d : Z) (w : World)
    (Hnorm : JS.trim (JS.toLowerCase q1) = JS.trim (JS.toLowerCase q2))
    (Hq1 : isBlank q1 = false)
    (Hmiss : misses understandQueryClass (getQueryCacheKey md5 q1) w)
    (Hans : outcome svc1 = answered json)
    (Hclock : now w + latency svc1 <> 0)
    (Hd : d < CACHE_TTL.UNDERSTAND_QUERY) :
  let first := understandQuery md5 svc1 q1 w in
  let second := understandQuery md5 svc2 q2 (elapse d first.2) in
  getQueryCacheKey md5 (JS.toLowerCase q1) = getQueryCacheKey md5 q1
  /\ getQueryCacheKey md5 (JS.trim q1) = getQueryCacheKey md5 q1
  /\ getQueryCacheKey md5 q2 = getQueryCacheKey md5 q1
  /\ second.1 = first.1
  /\ groqCalls second.2 = groqCalls first.2.
Proof.
  intros first second.
  assert (Hkey : getQueryCacheKey md5 q2 = getQueryCacheKey md5 q1).
  { unfold getQueryCacheKey. by rewrite Hnorm. }
  split. { unfold getQueryCacheKey. by rewrite toLowerCase_idemp. }
  split. { unfold getQueryCacheKey. by rewrite toLowerCase_trim, trim_idemp. }
  split; [exact Hkey |].
  subst second first.
  destruct (understandQuery_answered md5 svc1 q1 w json Hq1 Hmiss Hans)
    as (w' & -> & Hentry & Hnow & _).
  simpl fst. simpl snd.
  rewrite (understandQuery_hit md5 svc2 q2 (elapse d w') _
             (isBlank_normalized q1 q2 Hnorm Hq1)
             ltac:(rewrite Hkey; exact Hentry)).
  - done.
  - apply fresh_iff. simpl. split; [done |]. lia.
Qed.

(** X1 at the queries ["spm"] and ["  SPM "], ten seconds apart. *)
Lemma query_key_ignores_case_and_padding_witness :
  let svc := {| latency := 40; outcome := answered None |} in
  let first := understandQuery plainDigest svc "spm" (emptyWorld 5) in
  let second := understandQuery plainDigest svc "  SPM " (elapse 10000 first.2) in
  second.1 = first.1 /\ groqCalls second.2 = 1%nat.
Proof.
  intros svc first second.
  assert (Hm : misses understandQueryClass (getQueryCacheKey plainDigest "spm")
                 (emptyWorld 5)).
  { intros e He. simpl in He. by rewrite lookup_empty in He. }
  destruct (query_key_ignores_case_and_padding plainDigest svc svc "spm" "  SPM "
              None 10000 (emptyWorld 5) eq_refl eq_refl Hm eq_refl
              ltac:(discriminate) ltac:(reflexivity)) as (_ & _ & _ & H1 & H2).
  split; [exact H1 |]. fold first second in H2. rewrite H2. reflexivity.
Defined.

(** ** Round trips and expiry in the AI cache *)

Lemma fresh_after_put {A} (v : A) (ttl t d : Z) :
  fresh {| data := v; timestamp := t |} ttl (t + d) = negb (t =? 0) && (d <? ttl).
Proof. unfold fresh. simpl. by replace (t + d - t) with d by lia. Qed.

Lemma getCached_after_put {A} (C : CacheClass A) (key : string) (v : A) (d : Z) (w w' : World) :
  cmap C w' !! key = Some {| data := v; timestamp := now w |} ->
  now w' = now w + d ->
  (getCached C key w').1 = if negb (now w =? 0) && (d <? ttl C) then Some v else None.
Proof.
  intros He Hnow. rewrite getCached_unfold, He, Hnow, fresh_after_put.
  by destruct (negb (now w =? 0) && (d <? ttl C)).
Qed.

(** X2.  What is stored in the understanding, overview or ranking cache is
    read back under the same query (and result list) exactly while it is
    younger than the TTL of its class: 30, 60 and 30 minutes.  At the age of
    the TTL and after, and always when it was stored at time 0, the read is
    a miss, and the read that finds a stale entry removes it. *)
Theorem ai_cache_round_trip
    (md5 : string -> string) (query : string) (results : list SearchResult)
    (u : Understanding) (o : option string) (r : list SearchResult)
    (d : Z) (w : World) :
  let live ttl := negb (now w =? 0) && (d <? ttl) in
  let wu := elapse d (cacheUnderstanding md5 query u w).2 in
  let wo := elapse d (cacheOverview md5 query results o w).2 in
  let wr := elapse d (cacheRanking md5 query results r w).2 in
  (getCachedUnderstanding md5 query wu).1
    = (if live CACHE_TTL.UNDERSTAND_QUERY then Some u else None)
  /\ (getCachedOverview md5 query results wo).1
     = (if live CACHE_TTL.OVERVIEW then o else None)
  /\ (getCachedRanking md5 query results wr).1
     = (if live CACHE_TTL.RANKING then Some r else None)
  /\ (live CACHE_TTL.UNDERSTAND_QUERY = false ->
      understandQueryCache (getCachedUnderstanding md5 query wu).2
        !! getQueryCacheKey md5 query = None)
  /\ (live CACHE_TTL.OVERVIEW = false ->
      overviewCache (getCachedOverview md5 query results wo).2
        !! getResultsCacheKey md5 query results = None)
  /\ (live CACHE_TTL.RANKING = false ->
      rankingCache (getCachedRanking md5 query results wr).2
        !! getResultsCacheKey md5 query results = None).
Proof.
  intros live wu wo wr.
  assert (Hu : understandQueryCache wu !! getQueryCacheKey md5 query
               = Some {| data := u; timestamp := now w |}) by apply lookup_insert_eq.
  assert (Ho : overviewCache wo !! getResultsCacheKey md5 query results
               = Some {| data := o; timestamp := now w |}) by apply lookup_insert_eq.
  assert (Hr : rankingCache wr !! getResultsCacheKey md5 query results
               = Some {| data := r; timestamp := now w |}) by apply lookup_insert_eq.
  split; [by apply (getCached_after_put understandQueryClass _ u d w wu) |].
  split.
  { unfold getCachedOverview, bind, ret.
    pose proof (getCached_after_put overviewClass _ o d w wo Ho eq_refl) as H.
    destruct (getCached overviewClass _ wo) as [c w']. simpl in *. rewrite H.
    fold (live CACHE_TTL.OVERVIEW). by destruct (live CACHE_TTL.OVERVIEW). }
  split; [by apply (getCached_after_put rankingClass _ r d w wr) |].
  split; [| split]; intros Hdead.
  - unfold getCachedUnderstanding. rewrite getCached_unfold.
    change (cmap understandQueryClass wu) with (understandQueryCache wu).
    rewrite Hu. change (now wu) with (now w + d). rewrite fresh_after_put.
    change (negb (now w =? 0) && (d <? ttl understandQueryClass))
      with (live CACHE_TTL.UNDERSTAND_QUERY).
    rewrite Hdead. simpl. apply lookup_delete_eq.
  - unfold getCachedOverview, bind, ret. rewrite getCached_unfold.
    change (cmap overviewClass wo) with (overviewCache wo).
    rewrite Ho. change (now wo) with (now w + d). rewrite fresh_after_put.
    change (negb (now w =? 0) && (d <? ttl overviewClass))
      with (live CACHE_TTL.OVERVIEW).
    rewrite Hdead. simpl. apply lookup_delete_eq.
  - unfold getCachedRanking. rewrite getCached_unfold.
    change (cmap rankingClass wr) with (rankingCache wr).
    rewrite Hr. change (now wr) with (now w + d). rewrite fresh_after_put.
    change (negb (now w =? 0) && (d <? ttl rankingClass))
      with (live CACHE_TTL.RANKING).
    rewrite Hdead. simpl. apply lookup_delete_eq.
Qed.

(** X2 at an empty cache at time 1000: read back after 29 minutes, gone
    after 30. *)
Lemma ai_cache_round_trip_witness :
  let w := (cacheUnderstanding plainDigest "spm" blankUnderstanding (emptyWorld 1000)).2 in
  (getCachedUnderstanding plainDigest "spm" (elapse (29 * 60 * 1000) w)).1
    = Some blankUnderstanding
  /\ (getCachedUnderstanding plainDigest "spm" (elapse (30 * 60 * 1000) w)).1 = None.
Proof.
  intros w. split.
  - exact (proj1 (ai_cache_round_trip plainDigest "spm" [] blankUnderstanding None []
                    (29 * 60 * 1000) (emptyWorld 1000))).
  - exact (proj1 (ai_cache_round_trip plainDigest "spm" [] blankUnderstanding None []
                    (30 * 60 * 1000) (emptyWorld 1000))).
Defined.

(** ** The sweep and the statistics *)

Lemma sweep_lookup {A} (ttl t : Z) (m : gmap string (Entry A)) (k : string) :
  sweep ttl t m !! k =
  match m !! k with
  | Some e => if fresh e ttl t then Some e else None
  | None => None
  end.
Proof.
  unfold sweep. destruct (m !! k) as [e|] eqn:He.
  - destruct (fresh e ttl t) eqn:Hf.
    + by apply map_lookup_filter_Some.
    + apply map_lookup_filter_None. right. intros e' He'. simpl.
      assert (e' = e) by congruence. subst. by rewrite Hf.
  - apply map_lookup_filter_None. by left.
Qed.

Lemma sweep_idemp {A} (ttl t : Z) (m : gmap string (Entry A)) :
  sweep ttl t (sweep ttl t m) = sweep ttl t m.
Proof.
  apply map_eq. intros k. rewrite !sweep_lookup.
  destruct (m !! k) as [e|]; [| done].
  destruct (fresh e ttl t) eqn:Hf; [by rewrite Hf | done].
Qed.

Lemma getCached_sweep {A} (C : CacheClass A) (key : string) (w w' : World) :
  cmap C w' = sweep (ttl C) (now w) (cmap C w) -> now w' = now w ->
  (getCached C key w').1 = (getCached C key w).1.
Proof.
  intros Hm Hn. rewrite !getCached_unfold, Hm, Hn, sweep_lookup.
  destruct (cmap C w !! key) as [e|]; [| done].
  destruct (fresh e (ttl C) (now w)) eqn:Hf; [by rewrite Hf | done].
Qed.

(** X3.  The sweep keeps, in each of the four caches, exactly the entries
    that a read would still serve, and nothing else changes: the clock and
    the call counter are as before, every read of the understanding,
    overview, ranking and suggestions caches answers after the sweep what it
    would have answered before, and sweeping twice is sweeping once. *)
Theorem cleanExpiredEntries_keeps_what_reads_serve (s : Server) :
  let s' := cleanExpiredEntries s in
  let t := now (world s) in
  (forall k e, understandQueryCache (world s') !! k = Some e <->
     understandQueryCache (world s) !! k = Some e
     /\ fresh e CACHE_TTL.UNDERSTAND_QUERY t = true)
  /\ (forall k e, suggestionsCache s' !! k = Some e <->
        suggestionsCache s !! k = Some e /\ fresh e CACHE_TTL_SUGGESTIONS t = true)
  /\ (forall k e, overviewCache (world s') !! k = Some e <->
        overviewCache (world s) !! k = Some e /\ fresh e CACHE_TTL.OVERVIEW t = true)
  /\ (forall k e, rankingCache (world s') !! k = Some e <->
        rankingCache (world s) !! k = Some e /\ fresh e CACHE_TTL.RANKING t = true)
  /\ now (world s') = t /\ groqCalls (world s') = groqCalls (world s)
  /\ (forall md5 query results,
        (getCachedUnderstanding md5 query (world s')).1
          = (getCachedUnderstanding md5 query (world s)).1
        /\ (getCachedOverview md5 query results (world s')).1
           = (getCachedOverview md5 query results (world s)).1
        /\ (getCachedRanking md5 query results (world s')).1
           = (getCachedRanking md5 query results (world s)).1
        /\ (getCachedSuggestions md5 query s').1 = (getCachedSuggestions md5 query s).1)
  /\ cleanExpiredEntries s' = s'.
Proof.
  intros s' t.
  assert (Hiff : forall A ttl (m : gmap string (Entry A)) k e,
            sweep ttl t m !! k = Some e <-> m !! k = Some e /\ fresh e ttl t = true).
  { intros A ttl m k e. rewrite sweep_lookup. destruct (m !! k) as [e'|].
    - destruct (fresh e' ttl t) eqn:Hf; split.
      + intros [= <-]. done.
      + by intros [? _].
      + done.
      + intros [[= <-] ?]. congruence.
    - split; [done | by intros [? _]]. }
  split; [intros; apply Hiff |]. split; [intros; apply Hiff |].
  split; [intros; apply Hiff |]. split; [intros; apply Hiff |].
  split; [done |]. split; [done |]. split.
  - intros md5 query results.
    split; [by apply (getCached_sweep understandQueryClass) |].
    split.
    { unfold getCachedOverview, bind, ret.
      pose proof (getCached_sweep overviewClass
                    (getResultsCacheKey md5 query results) (world s) (world s')
                    eq_refl eq_refl) as H.
      destruct (getCached overviewClass _ (world s')) as [c1 w1].
      destruct (getCached overviewClass _ (world s)) as [c2 w2].
      simpl in *. by rewrite H. }
    split; [by apply (getCached_sweep rankingClass) |].
    unfold getCachedSuggestions. subst s'. simpl. rewrite sweep_lookup.
    destruct (suggestionsCache s !! _) as [e|]; [| done].
    fold t. destruct (fresh e CACHE_TTL_SUGGESTIONS t) eqn:Hf; [by rewrite Hf | done].
  - subst s'. unfold cleanExpiredEntries. simpl. by rewrite !sweep_idemp.
Qed.

(** X3 at a server holding one stale and one fresh understanding record. *)
Lemma cleanExpiredEntries_keeps_what_reads_serve_witness :
  let old := {| data := blankUnderstanding; timestamp := 1 |} in
  let young := {| data := blankUnderstanding; timestamp := 30 * 60 * 1000 |} in
  let s := {| world := {| understandQueryCache := {[ "a" := old; "b" := young ]};
                          overviewCache := ∅; rankingCache := ∅;
                          now := 30 * 60 * 1000 + 1; groqCalls := 0 |};
              suggestionsCache := ∅ |} in
  understandQueryCache (world (cleanExpiredEntries s)) !! "b" = Some young
  /\ understandQueryCache (world (cleanExpiredEntries s)) !! "a" = None.
Proof.
  intros old young s. split.
  - apply (proj1 (cleanExpiredEntries_keeps_what_reads_serve s)). by vm_compute.
  - destruct (understandQueryCache (world (cleanExpiredEntries s)) !! "a") as [e|] eqn:He;
      [| done].
    apply (proj1 (cleanExpiredEntries_keeps_what_reads_serve s)) in He as [He Hf].
    vm_compute in He. injection He as <-. discriminate Hf.
Defined.

(** X4.  The statistics count, for each class, the entries a read would
    still serve at that moment; the total is their sum and never exceeds the
    number of entries held before; the TTLs are reported as 30, 15, 60 and 30
    minutes.  Asking for the statistics sweeps the caches, and right after
    [clearAllCaches] every count is zero. *)
Theorem getCacheStats_counts_live_entries (s : Server) :
  let st := (getCacheStats s).1 in
  let w := world s in
  stat_understandQuery st
    = size (sweep CACHE_TTL.UNDERSTAND_QUERY (now w) (understandQueryCache w))
  /\ stat_suggestions st = size (sweep CACHE_TTL_SUGGESTIONS (now w) (suggestionsCache s))
  /\ stat_overview st = size (sweep CACHE_TTL.OVERVIEW (now w) (overviewCache w))
  /\ stat_ranking st = size (sweep CACHE_TTL.RANKING (now w) (rankingCache w))
  /\ stat_total st = (stat_understandQuery st + stat_suggestions st
                      + stat_overview st + stat_ranking st)%nat
  /\ (stat_total st <= size (understandQueryCache w) + size (suggestionsCache s)
                       + size (overviewCache w) + size (rankingCache w))%nat
  /\ (stat_ttl_understandQuery st, stat_ttl_suggestions st,
      stat_ttl_overview st, stat_ttl_ranking st) = (30, 15, 60, 30)
  /\ (getCacheStats s).2 = cleanExpiredEntries s
  /\ stat_total (getCacheStats (clearAllCaches s)).1 = 0%nat.
Proof.
  intros st w. subst st. unfold getCacheStats. simpl.
  repeat (split; [reflexivity |]).
  split; [| done].
  assert (Hle : forall A ttl (m : gmap string (Entry A)),
            (size (sweep ttl (now w) m) <= size m)%nat).
  { intros A ttl m. apply map_size_filter. }
  pose proof (Hle _ CACHE_TTL.UNDERSTAND_QUERY (understandQueryCache w)).
  pose proof (Hle _ CACHE_TTL_SUGGESTIONS (suggestionsCache s)).
  pose proof (Hle _ CACHE_TTL.OVERVIEW (overviewCache w)).
  pose proof (Hle _ CACHE_TTL.RANKING (rankingCache w)).
  fold w. lia.
Qed.

(** ** Suggestions *)

Lemma generateSuggestions_blank md5 svc query existing s :
  String.length (JS.trim query) = 0%nat ->
  generateSuggestions md5 svc query existing s = ([], s).
Proof.
  intros Hb. unfold generateSuggestions. rewrite Hb. by rewrite orb_true_r.
Qed.

Lemma generateSuggestions_hit md5 svc query existing s e :
  (0 < String.length (JS.trim query))%nat ->
  suggestionsCache s !! getQueryCacheKey md5 query = Some e ->
  fresh e CACHE_TTL_SUGGESTIONS (now (world s)) = true ->
  generateSuggestions md5 svc query existing s = (data e, s).
Proof.
  intros Hq He Hf. unfold generateSuggestions, getCachedSuggestions.
  destruct query as [|c q]; [simpl in Hq; lia |].
  destruct (String.length (JS.trim (String c q))) as [|n] eqn:Hlen; [lia |].
  simpl. by rewrite He, Hf.
Qed.

Lemma generateSuggestions_calls md5 svc query existing s :
  let s' := (generateSuggestions md5 svc query existing s).2 in
  (groqCalls (world s) <= groqCalls (world s') <= S (groqCalls (world s)))%nat.
Proof.
  unfold generateSuggestions, getCachedSuggestions, callGroq.
  repeat case_match; simplify_eq; simpl; lia.
Qed.

(** [generateSuggestions] on a query that is not blank and has no usable
    entry: the stale entry, if any, is dropped, the service is called, and
    an answer is cached. *)
Lemma generateSuggestions_miss md5 svc query existing s :
  (0 < String.length (JS.trim query))%nat ->
  (forall e, suggestionsCache s !! getQueryCacheKey md5 query = Some e ->
             fresh e CACHE_TTL_SUGGESTIONS (now (world s)) = false) ->
  generateSuggestions md5 svc query existing s =
    let s1 := match suggestionsCache s !! getQueryCacheKey md5 query with
              | Some _ => {| world := world s;
                             suggestionsCache :=
                               delete (getQueryCacheKey md5 query) (suggestionsCache s) |}
              | None => s
              end in
    let (completion, w2) := callGroq svc (world s1) in
    let s2 := {| world := w2; suggestionsCache := suggestionsCache s1 |} in
    match completion with
    | answered json =>
        let l := match json with
                 | Some parsed =>
                     match j_suggestions parsed, j_array parsed with
                     | Some l, _ => l
                     | None, Some l => l
                     | None, None => []
                     end
                 | None => []
                 end in
        (l, cacheSuggestions md5 query l s2)
    | rejected => ([], s2)
    end.
Proof.
  intros Hquery Hmiss. unfold generateSuggestions, getCachedSuggestions.
  destruct query as [|c q]; [simpl in Hquery; lia |].
  destruct (String.length (JS.trim (String c q))) as [|n] eqn:Hlen; [lia |].
  simpl negb. simpl orb. cbv iota.
  destruct (suggestionsCache s !! _) as [e|] eqn:He; [| done].
  by rewrite (Hmiss e eq_refl).
Qed.

(** An answered call fills the cache for the next one. *)
Lemma generateSuggestions_answered_then_hit
    md5 svc1 svc2 query ex1 ex2 d s json :
  (0 < String.length (JS.trim query))%nat ->
  (forall e, suggestionsCache s !! getQueryCacheKey md5 query = Some e ->
             fresh e CACHE_TTL_SUGGESTIONS (now (world s)) = false) ->
  outcome svc1 = answered json ->
  now (world s) + latency svc1 <> 0 -> d < CACHE_TTL_SUGGESTIONS ->
  let first := generateSuggestions md5 svc1 query ex1 s in
  let second := generateSuggestions md5 svc2 query ex2 (advance d first.2) in
  first.1 = match json with
            | Some parsed =>
                match j_suggestions parsed, j_array parsed with
                | Some l, _ => l
                | None, Some l => l
                | None, None => []
                end
            | None => []
            end
  /\ second.1 = first.1
  /\ groqCalls (world second.2) = S (groqCalls (world s)).
Proof.
  intros Hquery Hmiss Hans Hclock Hd first second. subst second first.
  rewrite (generateSuggestions_miss md5 svc1 query ex1 s Hquery Hmiss).
  unfold callGroq. rewrite Hans. cbv zeta.
  set (l := match json with Some _ => _ | None => [] end).
  split; [done |].
  rewrite (generateSuggestions_hit md5 svc2 query ex2 _
             {| data := l; timestamp := now (world s) + latency svc1 |} Hquery).
  - split; [done |]. simpl. by destruct (suggestionsCache s !! _).
  - simpl. destruct (suggestionsCache s !! _); apply lookup_insert_eq.
  - apply fresh_iff. simpl. destruct (suggestionsCache s !! _); simpl; split; (done || lia).
Qed.

(** X5.  For a query that is not blank and has no usable entry in the
    suggestions cache: when the service answers, the list read off the
    answer ([suggestions], else [array], else the empty list) is returned
    and cached, and a second call within the 15 minutes of the TTL returns
    the same list without calling the service, also when that list is
    empty; when the service fails the result is the empty list and nothing
    is cached.  A blank query gets the empty list with no call and no cache
    access. *)
Theorem generateSuggestions_caches_answers
    (md5 : string -> string) (svc1 svc2 : Service SuggestionsJson)
    (query : string) (ex1 ex2 : list Suggestion) (d : Z) (s : Server)
    (Hquery : (0 < String.length (JS.trim query))%nat)
    (Hmiss : forall e, suggestionsCache s !! getQueryCacheKey md5 query = Some e ->
                       fresh e CACHE_TTL_SUGGESTIONS (now (world s)) = false) :
  let first := generateSuggestions md5 svc1 query ex1 s in
  let second := generateSuggestions md5 svc2 query ex2 (advance d first.2) in
  (forall json, outcome svc1 = answered json ->
     now (world s) + latency svc1 <> 0 -> d < CACHE_TTL_SUGGESTIONS ->
     first.1 = match json with
               | Some parsed =>
                   match j_suggestions parsed, j_array parsed with
                   | Some l, _ => l
                   | None, Some l => l
                   | None, None => []
                   end
               | None => []
               end
     /\ second.1 = first.1
     /\ groqCalls (world second.2) = S (groqCalls (world s)))
  /\ (outcome svc1 = rejected ->
      first.1 = []
      /\ suggestionsCache first.2 !! getQueryCacheKey md5 query = None
      /\ groqCalls (world first.2) = S (groqCalls (world s)))
  /\ (forall blank, String.length (JS.trim blank) = 0%nat ->
        generateSuggestions md5 svc1 blank ex1 s = ([], s)).
Proof.
  intros first second. split; [| split].
  - intros json Hans Hclock Hd.
    by apply generateSuggestions_answered_then_hit.
  - intros Hfail. subst first.
    rewrite (generateSuggestions_miss md5 svc1 query ex1 s Hquery Hmiss).
    unfold callGroq. rewrite Hfail. cbv zeta.
    destruct (suggestionsCache s !! _) as [e|] eqn:He; simpl.
    + split; [done |]. split; [apply lookup_delete_eq | done].
    + by rewrite He.
  - intros blank Hb. by apply generateSuggestions_blank.
Qed.

(** X5 at the query ["spm"], the service answering an empty list. *)
Lemma generateSuggestions_caches_answers_witness :
  let s := {| world := emptyWorld 5; suggestionsCache := ∅ |} in
  let svc := {| latency := 40;
                outcome := answered (Some {| j_suggestions := Some [];
                                             j_array := None |}) |} in
  let first := generateSuggestions plainDigest svc "spm" [] s in
  let second := generateSuggestions plainDigest svc "spm" [] (advance 1000 first.2) in
  (0 < String.length (JS.trim "spm"))%nat
  /\ second.1 = first.1
  /\ groqCalls (world second.2) = 1%nat.
Proof.
  intros s svc first second.
  assert (Hq : (0 < String.length (JS.trim "spm"))%nat) by (vm_compute; lia).
  assert (Hm : forall e, suggestionsCache s !! getQueryCacheKey plainDigest "spm" = Some e ->
                         fresh e CACHE_TTL_SUGGESTIONS (now (world s)) = false).
  { intros e He. simpl in He. by rewrite lookup_empty in He. }
  destruct (proj1 (generateSuggestions_caches_answers plainDigest svc svc "spm" [] []
                     1000 s Hq Hm) _ eq_refl ltac:(discriminate) ltac:(reflexivity))
    as (_ & H2 & H3).
  split; [exact Hq |]. split; [exact H2 | exact H3].
Defined.

Lemma uniq_go_seen (seen l : list string) :
  (forall x, x ∈ l -> x ∈ seen) -> uniq_go seen l = [].
Proof.
  induction l as [|a l IH]; simpl; [done |]. intros Hall.
  rewrite bool_decide_eq_true_2 by (apply Hall; set_solver).
  apply IH. intros x Hx. apply Hall. set_solver.
Qed.

Lemma uniq_go_app (l seen l' : list string) :
  (forall x, x ∈ l' -> x ∈ seen \/ x ∈ l) ->
  uniq_go seen (l ++ l') = uniq_go seen l.
Proof.
  revert seen. induction l as [|a l IH]; intros seen Hall; simpl.
  - apply uniq_go_seen. intros x Hx. destruct (Hall x Hx) as [? | H]; [done |].
    by apply elem_of_nil in H.
  - destruct (bool_decide (a ∈ seen)) eqn:Ha.
    + apply IH. intros x Hx. destruct (Hall x Hx) as [? | H]; [by left |].
      apply elem_of_cons in H as [-> | ?]; [| by right].
      left. by apply bool_decide_eq_true in Ha.
    + f_equal. apply IH. intros x Hx. destruct (Hall x Hx) as [? | H].
      * left. set_solver.
      * apply elem_of_cons in H as [-> | ?]; [left; set_solver | by right].
Qed.

(** Listing a list twice adds nothing to the set. *)
Lemma uniq_twice (l : list string) : uniq (l ++ l) = uniq l.
Proof. apply uniq_go_app. intros x Hx. by right. Qed.

(** X6.  [GET /suggest] never answers with more than 6 suggestions and
    calls the service at most twice; with an empty query it answers with
    none and does nothing; when the search of the index fails it answers
    with none, after the first call to the service. *)
Theorem suggest_is_bounded
    (md5 : string -> string) (ext : SuggestExternals) (query : string) (s : Server) :
  let res := suggest md5 ext query s in
  (length res.1 <= 6)%nat
  /\ (groqCalls (world s) <= groqCalls (world res.2) <= groqCalls (world s) + 2)%nat
  /\ (query = EmptyString -> res = ([], s))
  /\ (query <> EmptyString ->
      contextSearch ext (buildElasticsearchQuery (suggestUnderstanding query) None) 5 = None ->
      res = ([], (generateSuggestions md5 (firstService ext) query [] s).2)).
Proof.
  intros res. subst res. unfold suggest.
  destruct query as [|c q]; [simpl; repeat split; (lia || done) |].
  change (negb (JS.nonEmpty (String c q)) || (String.length (String c q) <? 1)%nat)
    with false. cbv iota.
  pose proof (generateSuggestions_calls md5 (firstService ext) (String c q) [] s) as H1.
  destruct (generateSuggestions md5 (firstService ext) (String c q) [] s) as [ai s1].
  simpl in H1.
  destruct (contextSearch ext _ 5) as [[took es]|]; [| simpl; repeat split; (lia || done)].
  pose proof (generateSuggestions_calls md5 (secondService ext) (String c q) es
                (advance took s1)) as H2.
  destruct (generateSuggestions md5 (secondService ext) (String c q) es (advance took s1))
    as [ctx s2].
  simpl in H2. simpl.
  split; [rewrite length_take; lia |]. split; [lia |]. split; done.
Qed.

(** X6 at the query ["spm"] with the index engine down. *)
Lemma suggest_is_bounded_witness :
  let ext := {| firstService := {| latency := 40; outcome := rejected |};
                contextSearch := fun _ _ => None;
                secondService := {| latency := 40; outcome := rejected |} |} in
  let s := {| world := emptyWorld 5; suggestionsCache := ∅ |} in
  (suggest plainDigest ext "spm" s).1 = [].
Proof.
  intros ext s.
  destruct (suggest_is_bounded plainDigest ext "spm" s) as (_ & _ & _ & H).
  rewrite H; [reflexivity | discriminate | reflexivity].
Defined.

(** X7.  When the first call of [GET /suggest] is answered (no usable entry
    before, the clock not at zero) and the search of the index takes less
    than the 15 minutes of the TTL, the second, "contextual" call is served
    from the cache the first one has just filled: the service is called
    once, the hits never reach it, and the suggestions are built from the
    first answer alone. *)
Theorem suggest_contextual_call_is_a_cache_hit
    (md5 : string -> string) (ext : SuggestExternals) (query : string) (s : Server)
    (json : option SuggestionsJson) (took : Z) (esResults : list Suggestion)
    (Hquery : (0 < String.length (JS.trim query))%nat)
    (Hmiss : forall e, suggestionsCache s !! getQueryCacheKey md5 query = Some e ->
                       fresh e CACHE_TTL_SUGGESTIONS (now (world s)) = false)
    (Hans : outcome (firstService ext) = answered json)
    (Hclock : now (world s) + latency (firstService ext) <> 0)
    (Hes : contextSearch ext (buildElasticsearchQuery (suggestUnderstanding query) None) 5
           = Some (took, esResults))
    (Htook : took < CACHE_TTL_SUGGESTIONS) :
  let res := suggest md5 ext query s in
  let ai := (generateSuggestions md5 (firstService ext) query [] s).1 in
  res.1 = take 6 (addMissing (mapi_from (toSuggestion esResults) 0 (take 6 (uniq ai)))
                             esResults)
  /\ groqCalls (world res.2) = S (groqCalls (world s)).
Proof.
  intros res ai. subst res ai. unfold suggest.
  destruct query as [|c q]; [simpl in Hquery; lia |].
  change (negb (JS.nonEmpty (String c q)) || (String.length (String c q) <? 1)%nat)
    with false. cbv iota.
  destruct (generateSuggestions_answered_then_hit md5 (firstService ext)
              (secondService ext) (String c q) [] esResults took s json
              Hquery Hmiss Hans Hclock Htook) as (_ & Hsame & Hcalls).
  destruct (generateSuggestions md5 (firstService ext) (String c q) [] s) as [ai s1].
  rewrite Hes. simpl in Hsame, Hcalls.
  destruct (generateSuggestions md5 (secondService ext) (String c q) esResults
              (advance took s1)) as [ctx s2].
  simpl in Hsame, Hcalls. subst ctx. simpl. by rewrite uniq_twice.
Qed.

(** X7 at the query ["spm"], the service answering two suggestions. *)
Lemma suggest_contextual_call_is_a_cache_hit_witness :
  let hit := {| s_id := "7"; s_url := "https://i2e.example/spm";
                s_title := "SPM Services"; s_description := EmptyString;
                s_category := "services" |} in
  let ext := {| firstService :=
                  {| latency := 40;
                     outcome := answered (Some {| j_suggestions := Some ["spm services"; "spm tools"];
                                                  j_array := None |}) |};
                contextSearch := fun _ _ => Some (25, [hit]);
                secondService := {| latency := 40; outcome := rejected |} |} in
  let s := {| world := emptyWorld 5; suggestionsCache := ∅ |} in
  groqCalls (world (suggest plainDigest ext "spm" s).2) = 1%nat
  /\ s_title <$> (suggest plainDigest ext "spm" s).1 = ["SPM Services"; "spm tools"].
Proof.
  intros hit ext s.
  assert (Hq : (0 < String.length (JS.trim "spm"))%nat) by (vm_compute; lia).
  assert (Hm : forall e, suggestionsCache s !! getQueryCacheKey plainDigest "spm" = Some e ->
                         fresh e CACHE_TTL_SUGGESTIONS (now (world s)) = false).
  { intros e He. simpl in He. by rewrite lookup_empty in He. }
  destruct (suggest_contextual_call_is_a_cache_hit plainDigest ext "spm" s _ 25 [hit]
              Hq Hm eq_refl ltac:(discriminate) eq_refl ltac:(reflexivity)) as (H1 & H2).
  split; [exact H2 |]. rewrite H1. by vm_compute.
Defined.

(** ** More on [GET /search] *)

Lemma generateOverview_calls md5 svc query top intent w :
  (groqCalls w <= groqCalls (generateOverview md5 svc query top intent w).2
   <= S (groqCalls w))%nat.
Proof.
  unfold generateOverview, bind, getCachedOverview, bind.
  destruct (negb (JS.nonEmpty query) || (length top =? 0)%nat); [simpl; lia |].
  rewrite getCached_unfold. simpl.
  unfold callGroq, ret. repeat case_match; simplify_eq; simpl; lia.
Qed.

Lemma slice0_length {A} (k : Z) (l : list A) :
  0 <= k -> (Z.of_nat (length (JS.slice0 k l)) <= k).
Proof.
  intros Hk. unfold JS.slice0. destruct (Z.leb_spec 0 k); [| lia].
  rewrite length_take. lia.
Qed.

Lemma ceilDiv_bounds (a b : Z) :
  0 < b -> b * (ceilDiv a b - 1) < a <= b * ceilDiv a b.
Proof.
  intros Hb. unfold ceilDiv.
  pose proof (Z.div_mod (- a) b ltac:(lia)) as Hdm.
  pose proof (Z.mod_pos_bound (- a) b Hb) as Hm. nia.
Qed.

(** The shape of every answer of the handler other than the two special
    bodies. *)
Lemma search_found md5 ext query categ rawPage rawPageSize w r :
  (search md5 ext query categ rawPage rawPageSize w).1 = Found r ->
  exists ranked,
    resp_results r = JS.slice0 (intOr rawPageSize 10) ranked
    /\ resp_pageSize r = intOr rawPageSize 10
    /\ resp_page r = intOr rawPage 1
    /\ resp_totalPages r = ceilDiv (resp_total r) (resp_pageSize r)
    /\ resp_didYouMean r <> Some EmptyString.
Proof.
  unfold search.
  destruct (negb (JS.nonEmpty query) && negb (JS.nonEmpty categ)); [done |].
  unfold bind at 1.
  destruct (understandQuery md5 (understandService ext) query w) as [u w1].
  destruct (esSearch ext _ _ _) as [[hits total]|]; [| done].
  unfold bind at 1.
  destruct ((if (0 <? length hits)%nat && (0 <? String.length (JS.trim query))%nat
             then rankResults md5 (rankService ext) query hits (intent u)
             else ret hits) w1) as [ranked w2].
  unfold bind at 1.
  match goal with
  | |- context [let (_, _) := ?m in _] => destruct m as [ov w3]
  end.
  simpl. intros [= <-]. exists ranked. simpl. repeat split.
  unfold JS.or, JS.truthy.
  destruct (didYouMean u) as [[|a x]|], (correctedQuery u) as [[|b y]|]; done.
Qed.

(** X8.  An assembled response never carries more results than the page
    size in force (the requested one, or 10 when it is missing, not a
    number or 0), provided that size is positive: whatever the ranker or
    its cache returned is cut to the page. *)
Theorem search_results_fit_the_page
    (md5 : string -> string) (ext : Externals) (query categ : string)
    (rawPage rawPageSize : option Z) (w : World) (r : SearchResponse)
    (Hfound : (search md5 ext query categ rawPage rawPageSize w).1 = Found r)
    (Hsize : 0 < intOr rawPageSize 10) :
  Z.of_nat (length (resp_results r)) <= resp_pageSize r
  /\ resp_pageSize r = intOr rawPageSize 10
  /\ (rawPageSize = None \/ rawPageSize = Some 0 -> (length (resp_results r) <= 10)%nat).
Proof.
  destruct (search_found _ _ _ _ _ _ _ _ Hfound) as (ranked & Hres & Hps & _).
  assert (Hlen : Z.of_nat (length (resp_results r)) <= resp_pageSize r).
  { rewrite Hres, Hps. apply slice0_length. lia. }
  split; [exact Hlen |]. split; [exact Hps |].
  intros [-> | ->]; simpl in *; lia.
Qed.

(** X8 at a request without page size for which the engine returns 12 hits
    and ranking fails. *)
Lemma search_results_fit_the_page_witness :
  let hits := map (fun i => page_of (pretty i) "t") (seq 0 12) in
  let ext := {| understandService := {| latency := 40; outcome := rejected |};
                esSearch := fun _ _ _ => Some (hits, 40);
                rankService := {| latency := 40; outcome := rejected |};
                overviewService := {| latency := 40; outcome := rejected |};
                esAggregation := fun _ => None |} in
  exists r, (search plainDigest ext "spm" EmptyString None None (emptyWorld 5)).1 = Found r
            /\ Z.of_nat (length (resp_results r)) <= resp_pageSize r.
Proof.
  intros hits ext. eexists. split; [by vm_compute |].
  refine (proj1 (search_results_fit_the_page plainDigest ext "spm" EmptyString
                   None None (emptyWorld 5) _ _ _)); [by vm_compute | done].
Defined.

(** X9.  For a positive page size and a total that are safe integers (at
    most [MAX_SAFE_INTEGER] in magnitude, where the quotient of doubles the
    code takes has the ceiling of the exact quotient), [totalPages] of an
    assembled response is the least number of pages that hold [total]
    results: [pageSize * (totalPages - 1) < total <= pageSize * totalPages];
    it is 0 exactly when there is nothing to show. *)
Theorem search_totalPages_covers_total
    (md5 : string -> string) (ext : Externals) (query categ : string)
    (rawPage rawPageSize : option Z) (w : World) (r : SearchResponse)
    (Hfound : (search md5 ext query categ rawPage rawPageSize w).1 = Found r)
    (Hsize : 0 < intOr rawPageSize 10 <= MAX_SAFE_INTEGER)
    (Htotal : - MAX_SAFE_INTEGER <= resp_total r <= MAX_SAFE_INTEGER) :
  resp_pageSize r * (resp_totalPages r - 1) < resp_total r
  /\ resp_total r <= resp_pageSize r * resp_totalPages r
  /\ (0 < resp_total r -> 1 <= resp_totalPages r)
  /\ (resp_total r = 0 -> resp_totalPages r = 0)
  /\ - MAX_SAFE_INTEGER <= resp_totalPages r <= MAX_SAFE_INTEGER.
Proof.
  destruct (search_found _ _ _ _ _ _ _ _ Hfound) as (ranked & _ & Hps & _ & Htp & _).
  rewrite Htp. pose proof (ceilDiv_bounds (resp_total r) (resp_pageSize r)) as Hb.
  rewrite Hps in *. destruct Hsize as [Hpos Hmax]. specialize (Hb Hpos).
  repeat split; try lia; nia.
Qed.

(** X9 for 23 results in pages of 10: three pages. *)
Lemma search_totalPages_covers_total_witness :
  let ext := {| understandService := {| latency := 40; outcome := rejected |};
                esSearch := fun _ _ _ => Some ([page_of "a" "A"], 23);
                rankService := {| latency := 40; outcome := rejected |};
                overviewService := {| latency := 40; outcome := rejected |};
                esAggregation := fun _ => None |} in
  exists r, (search plainDigest ext "spm" EmptyString (Some 3) (Some 10) (emptyWorld 5)).1
            = Found r
            /\ resp_totalPages r = 3
            /\ resp_pageSize r * (resp_totalPages r - 1) < resp_total r.
Proof.
  intros ext. eexists. split; [by vm_compute |]. split; [by vm_compute |].
  refine (proj1 (search_totalPages_covers_total plainDigest ext "spm" EmptyString
                   (Some 3) (Some 10) (emptyWorld 5) _ _ _ _));
    [by vm_compute | by vm_compute | by vm_compute].
Defined.

(** X10.  One request to [GET /search] calls the completion service at most
    three times (understanding, ranking, overview), at most twice for a page
    other than 1, and not at all for a query that is empty or white space
    only: such a request leaves the caches, the clock of the model and the
    call counter as they were. *)
Theorem search_service_budget
    (md5 : string -> string) (ext : Externals) (query categ : string)
    (rawPage rawPageSize : option Z) (w : World) :
  let w' := (search md5 ext query categ rawPage rawPageSize w).2 in
  (groqCalls w <= groqCalls w' <= groqCalls w + 3)%nat
  /\ (intOr rawPage 1 <> 1 -> (groqCalls w' <= groqCalls w + 2)%nat)
  /\ (String.length (JS.trim query) = 0%nat -> w' = w).
Proof.
  intros w'.
  assert (Hres : w' = (search md5 ext query categ rawPage rawPageSize w).2) by reflexivity.
  clearbody w'. unfold search in Hres.
  destruct (negb (JS.nonEmpty query) && negb (JS.nonEmpty categ)).
  { subst w'. simpl. repeat split; lia. }
  unfold bind at 1 in Hres.
  pose proof (understandQuery_calls md5 (understandService ext) query w) as Hu.
  assert (Hblank : String.length (JS.trim query) = 0%nat ->
                   understandQuery md5 (understandService ext) query w
                   = (blankUnderstanding, w)).
  { intros Hb. apply understandQuery_blank. unfold isBlank. rewrite Hb.
    apply orb_true_r. }
  destruct (understandQuery md5 (understandService ext) query w) as [u w1].
  simpl in Hu.
  destruct (esSearch ext _ _ _) as [[hits total]|].
  2: { subst w'. unfold ret. simpl. split; [lia |]. split; [lia |]. intros Hb.
       by injection (Hblank Hb). }
  unfold bind at 1 in Hres.
  assert (Hr : let m := (if (0 <? length hits)%nat && (0 <? String.length (JS.trim query))%nat
                         then rankResults md5 (rankService ext) query hits (intent u)
                         else ret hits) w1 in
               (groqCalls w1 <= groqCalls m.2 <= S (groqCalls w1))%nat
               /\ (String.length (JS.trim query) = 0%nat -> m.2 = w1)).
  { destruct (String.length (JS.trim query)) as [|n] eqn:Hlen.
    - rewrite andb_false_r. simpl. split; [lia | done].
    - destruct (_ && _); [| simpl; split; [lia | done]].
      split; [apply rankResults_calls | done]. }
  destruct ((if (0 <? length hits)%nat && (0 <? String.length (JS.trim query))%nat
             then rankResults md5 (rankService ext) query hits (intent u)
             else ret hits) w1) as [ranked w2].
  simpl in Hr. destruct Hr as [Hr Hr0].
  unfold bind at 1 in Hres.
  set (cond := (intOr rawPage 1 =? 1) && (0 <? String.length (JS.trim query))%nat
               && (0 <? length (JS.slice0 (intOr rawPageSize 10) ranked))%nat) in Hres.
  assert (Ho : let m := (if cond
                         then generateOverview md5 (overviewService ext) query
                                (JS.slice0 (intOr rawPageSize 10) ranked) (intent u)
                         else ret None) w2 in
               (groqCalls w2 <= groqCalls m.2 <= S (groqCalls w2))%nat
               /\ (cond = false -> m.2 = w2)).
  { destruct cond; [split; [apply generateOverview_calls | done] |].
    simpl. split; [lia | done]. }
  destruct ((if cond then _ else ret None) w2) as [ov w3].
  simpl in Ho. destruct Ho as [Ho Ho0]. simpl in Hres. subst w'.
  split; [lia |]. split.
  - intros Hp. apply Z.eqb_neq in Hp. rewrite Ho0; [lia |].
    subst cond. by rewrite Hp.
  - intros Hb.
    assert (w3 = w2) as ->.
    { apply Ho0. unfold cond. rewrite Hb. by destruct (intOr rawPage 1 =? 1). }
    rewrite (Hr0 Hb). by injection (Hblank Hb).
Qed.

(** X10 at page 2 of the query ["spm"] with every call to the service
    failing. *)
Lemma search_service_budget_witness :
  let ext := {| understandService := {| latency := 40; outcome := rejected |};
                esSearch := fun _ _ _ => Some ([page_of "a" "A"], 11);
                rankService := {| latency := 40; outcome := rejected |};
                overviewService := {| latency := 40; outcome := rejected |};
                esAggregation := fun _ => None |} in
  intOr (Some 2) 1 <> 1
  /\ (groqCalls (search plainDigest ext "spm" EmptyString (Some 2%Z) None (emptyWorld 5)).2
      <= 0 + 2)%nat.
Proof.
  intros ext. assert (Hp : intOr (Some 2) 1 <> 1) by discriminate.
  split; [exact Hp |].
  exact (proj1 (proj2 (search_service_budget plainDigest ext "spm" EmptyString
                         (Some 2) None (emptyWorld 5))) Hp).
Defined.

Lemma NoDup_fst_agree {A B} (l : list (A * B)) (k : A) (a b : B) :
  NoDup l.*1 -> (k, a) ∈ l -> (k, b) ∈ l -> a = b.
Proof.
  induction l as [|[k' c] l IH]; simpl; [by intros _ H%elem_of_nil |].
  rewrite NoDup_cons. intros [Hnot Hnd] Ha Hb.
  apply elem_of_cons in Ha as [Ha | Ha]; apply elem_of_cons in Hb as [Hb | Hb].
  - congruence.
  - exfalso. apply Hnot. apply list_elem_of_fmap. exists (k, b). split; [| done].
    simpl. congruence.
  - exfalso. apply Hnot. apply list_elem_of_fmap. exists (k, a). split; [| done].
    simpl. congruence.
  - by apply IH.
Qed.

Lemma find_append {A} (p : A -> bool) (l l' : list A) :
  List.find p (l ++ l') = match List.find p l with
                          | Some x => Some x
                          | None => List.find p l'
                          end.
Proof. induction l as [|a l IH]; simpl; [done |]. by destruct (p a). Qed.

Lemma foldl_insert_lookup (buckets : list (string * Z)) (k : string) :
  NoDup buckets.*1 ->
  foldl (fun m b => <[ b.1 := b.2 ]> m) (∅ : gmap string Z) buckets !! k
  = snd <$> List.find (fun b => String.eqb b.1 k) buckets.
Proof.
  induction buckets as [|[k' n] bs IH] using rev_ind; [done |].
  rewrite fmap_app, NoDup_app. intros (Hnd & Hnot & _).
  rewrite foldl_app. simpl. rewrite lookup_insert. case_decide as Hk.
  - subst k'. rewrite find_append.
    destruct (List.find _ bs) as [[k2 n2]|] eqn:Hf.
    + apply find_some in Hf as [Hin Heq]. simpl in Heq.
      apply String.eqb_eq in Heq. subst k2.
      exfalso. apply (Hnot k); [| set_solver].
      apply list_elem_of_fmap. exists (k, n2). split; [done |].
      by apply list_elem_of_In.
    + simpl. by rewrite String.eqb_refl.
  - rewrite IH by done. rewrite find_append.
    destruct (List.find _ bs); [done |]. simpl.
    destruct (String.eqb_spec k' k); [done | done].
Qed.

(** X11.  The category counts of a response: when the aggregation call
    fails the map is empty; when it succeeds the entry of the empty category
    is the total of the aggregation, whatever the buckets say, and each
    other category of the (duplicate-free) buckets has its document count,
    no other key being present.  The name [__proto__], which a JavaScript
    object does not store as a key, is left aside. *)
Theorem categoryCounts_of_aggregation
    (buckets : list (string * Z)) (allTotal : Z) (k : string) (n : Z)
    (Hnodup : NoDup buckets.*1) (Hproto : k <> "__proto__") :
  countsOf None = ∅
  /\ countsOf (Some (buckets, allTotal)) !! EmptyString = Some allTotal
  /\ (k <> EmptyString -> (k, n) ∈ buckets ->
      countsOf (Some (buckets, allTotal)) !! k = Some n)
  /\ (k <> EmptyString -> k ∉ buckets.*1 ->
      countsOf (Some (buckets, allTotal)) !! k = None).
Proof.
  split; [done |]. split; [apply lookup_insert_eq |].
  split; intros Hk Hin; unfold countsOf; rewrite lookup_insert_ne by done;
    rewrite foldl_insert_lookup by done.
  - destruct (List.find _ buckets) as [[k2 n2]|] eqn:Hf.
    + apply find_some in Hf as [Hin2 Heq]. simpl in Heq.
      apply String.eqb_eq in Heq. subst k2. simpl. f_equal.
      apply list_elem_of_In in Hin2.
      symmetry. by apply (NoDup_fst_agree buckets k n n2).
    + exfalso. apply list_elem_of_In in Hin.
      apply (find_none _ _ Hf) in Hin. simpl in Hin.
      by rewrite String.eqb_refl in Hin.
  - destruct (List.find _ buckets) as [[k2 n2]|] eqn:Hf; [| done].
    apply find_some in Hf as [Hin2 Heq]. simpl in Heq.
    apply String.eqb_eq in Heq. subst k2. exfalso. apply Hin.
    apply list_elem_of_fmap. exists (k, n2). split; [done |]. by apply list_elem_of_In.
Qed.

(** X11 at two buckets, one of them for the empty category. *)
Lemma categoryCounts_of_aggregation_witness :
  countsOf (Some ([("blogs", 4); (EmptyString, 9)], 13)) !! "blogs" = Some 4
  /\ countsOf (Some ([("blogs", 4); (EmptyString, 9)], 13)) !! EmptyString = Some 13.
Proof.
  assert (Hnd : NoDup [("blogs", 4); (EmptyString, 9)].*1).
  { simpl. apply NoDup_cons. split; [| apply NoDup_singleton].
    intros H%list_elem_of_singleton. discriminate H. }
  destruct (categoryCounts_of_aggregation [("blogs", 4); (EmptyString, 9)] 13
              "blogs" 4 Hnd ltac:(discriminate)) as (_ & H0 & H1 & _).
  split; [apply H1; [discriminate | set_solver] | exact H0].
Defined.

(** ** More on the query builder *)

(** X12.  With a non-blank category filter the query sent to the engine has
    exactly one mandatory clause, the exact match on that category, whatever
    the understanding record says (intent, detected category).  A filter
    that is white space only restricts nothing: there is no mandatory
    clause, and the detected category is not used in its place. *)
Theorem category_filter_decides_must_clause (u : Understanding) (categ : string) :
  (nonBlank categ = true ->
     must (esQuery categ u) = Some [term Category categ]
     /\ must (buildElasticsearchQuery u (Some categ)) = Some [term Category categ]
     /\ forall textMatch d, selects textMatch (esQuery categ u) d = true ->
                            r_category d = categ)
  /\ (JS.nonEmpty categ = true -> JS.nonEmpty (JS.trim categ) = false ->
      must (esQuery categ u) = None).
Proof.
  split.
  - intros Hnb. destruct (andb_prop _ _ Hnb) as [Hne Htrim].
    assert (Hm : must (esQuery categ u) = Some [term Category categ]).
    { unfold esQuery, buildElasticsearchQuery, mustClauses.
      rewrite (proj2 (explicit_filter_precedence u categ Hne)).
      by rewrite Hne, Htrim. }
    split; [exact Hm |]. split.
    + unfold buildElasticsearchQuery, mustClauses, builderCategory, JS.or, JS.truthy.
      by rewrite !Hne, Htrim.
    + intros textMatch d. unfold selects. rewrite Hm. simpl.
      intros [[H _]%andb_prop _]%andb_prop. by apply String.eqb_eq.
  - intros Hne Htrim. unfold esQuery, buildElasticsearchQuery, mustClauses.
    rewrite (proj2 (explicit_filter_precedence u categ Hne)).
    by rewrite Hne, Htrim.
Qed.

(** X12 at the filter ["blogs"] on a record that detected ["services"]. *)
Lemma category_filter_decides_must_clause_witness :
  let u := {| intent := "category-only"; category := Some "services"; keywords := [];
              correctedQuery := None; expandedTerms := []; synonyms := [];
              didYouMean := None |} in
  must (esQuery "blogs" u) = Some [term Category "blogs"]
  /\ must (esQuery "  " u) = None.
Proof.
  intros u. split.
  - exact (proj1 (proj1 (category_filter_decides_must_clause u "blogs") eq_refl)).
  - exact (proj2 (category_filter_decides_must_clause u "  ") eq_refl eq_refl).
Defined.

Lemma string_length_app (s t : string) :
  String.length (s +:+ t) = (String.length s + String.length t)%nat.
Proof. induction s as [|c s IH]; simpl; [done |]. by rewrite IH. Qed.

Lemma anyChar_app (p : ascii -> bool) (s t : string) :
  anyChar p (s +:+ t) = anyChar p s || anyChar p t.
Proof. induction s as [|c s IH]; simpl; [done |]. by rewrite IH, orb_assoc. Qed.

Lemma replace_go_no_space (r s : string) (b : bool) :
  anyChar JS.isWhiteSpace r = false ->
  anyChar JS.isWhiteSpace (JS.replace_go r s b) = false.
Proof.
  intros Hr. revert b. induction s as [|c s IH]; intros b; simpl; [done |].
  destruct (JS.isWhiteSpace c) eqn:Hc.
  - destruct b; [apply IH |]. by rewrite anyChar_app, Hr, IH.
  - simpl. by rewrite Hc, IH.
Qed.

Lemma replace_go_fixed (r s : string) (b : bool) :
  anyChar JS.isWhiteSpace s = false -> JS.replace_go r s b = s.
Proof.
  revert b. induction s as [|c s IH]; intros b; simpl; [done |].
  intros [Hc Hs]%orb_false_elim. rewrite Hc. by rewrite IH.
Qed.

Lemma replace_go_length (s : string) (b : bool) :
  (String.length (JS.replace_go "*" s b) <= String.length s)%nat.
Proof.
  revert b. induction s as [|c s IH]; intros b; simpl; [done |].
  pose proof (IH true). pose proof (IH false).
  assert (Hnil : forall x : string, String.append EmptyString x = x) by done.
  destruct (JS.isWhiteSpace c); [destruct b |]; simpl; rewrite ?Hnil; lia.
Qed.

(** X13.  The pattern of the url wildcard clause of a term never contains
    white space: every run of white space in the term has become one [*], so
    the pattern is never longer than the term plus the two enclosing stars;
    for a term without white space it is the term between two stars. *)
Theorem url_wildcard_pattern (t : string) :
  exists pattern,
    urlClause t = wildcard Url pattern 7 true
    /\ anyChar JS.isWhiteSpace pattern = false
    /\ startsWith "*" pattern = true
    /\ (String.length pattern <= String.length t + 2)%nat
    /\ (anyChar JS.isWhiteSpace t = false -> pattern = "*" +:+ t +:+ "*").
Proof.
  eexists. split; [reflexivity |].
  assert (H : anyChar JS.isWhiteSpace (JS.replace_ws "*" t) = false)
    by (by apply replace_go_no_space).
  split; [by rewrite !anyChar_app, H |].
  split; [done |]. split.
  - rewrite !string_length_app. pose proof (replace_go_length t false).
    unfold JS.replace_ws. simpl. lia.
  - intros Ht. unfold JS.replace_ws. by rewrite replace_go_fixed.
Qed.

(** X13 at the term ["clinical  data"]. *)
Lemma url_wildcard_pattern_witness :
  urlClause "clinical  data" = wildcard Url "*clinical*data*" 7 true
  /\ urlClause "spm" = wildcard Url "*spm*" 7 true.
Proof.
  split; [reflexivity |].
  destruct (url_wildcard_pattern "spm") as (p & Hp & _ & _ & _ & Hfix).
  rewrite Hp. by rewrite (Hfix eq_refl).
Defined.

(** X14.  A query that is not empty but consists of white space only is not
    turned away, even without a category: the handler leaves the state
    untouched, sends a query with no mandatory clause and the single
    should-clause [match_all], which selects every document, and answers
    with the first page of whatever the engine returns, unranked and without
    overview. *)
Theorem whitespace_query_matches_everything
    (md5 : string -> string) (ext : Externals) (query : string)
    (rawPage rawPageSize : option Z) (w : World)
    (Hne : JS.nonEmpty query = true)
    (Hblank : String.length (JS.trim query) = 0%nat) :
  let q := {| must := None; should := [match_all]; minimum_should_match := 0 |} in
  let page := intOr rawPage 1 in
  let pageSize := intOr rawPageSize 10 in
  (forall textMatch d, selects textMatch q d = true)
  /\ search md5 ext query EmptyString rawPage rawPageSize w
     = (match esSearch ext q (Z.min (pageSize * 2) 100) ((page - 1) * pageSize) with
        | None => SearchFailed
        | Some (hits, total) =>
            Found {| resp_results := JS.slice0 pageSize hits;
                     resp_total := total;
                     resp_categoryCounts := countsOf (esAggregation ext q);
                     resp_page := page; resp_pageSize := pageSize;
                     resp_totalPages := ceilDiv total pageSize;
                     resp_overview := None; resp_didYouMean := None;
                     resp_intent := "search";
                     resp_understanding := (None, [], []) |}
        end, w).
Proof.
  intros q page pageSize. split; [done |].
  unfold search. rewrite Hne.
  change (negb true && negb (JS.nonEmpty EmptyString)) with false. cbv beta iota.
  unfold bind at 1. rewrite understandQuery_blank
    by (unfold isBlank; rewrite Hblank; apply orb_true_r).
  change (esQuery EmptyString blankUnderstanding) with q. fold page pageSize.
  destruct (esSearch ext q _ _) as [[hits total]|]; [| reflexivity].
  rewrite Hblank. change (0 <? 0)%nat with false.
  rewrite !andb_false_r. reflexivity.
Qed.

(** X14 at the query of one space. *)
Lemma whitespace_query_matches_everything_witness :
  let ext := {| understandService := {| latency := 40; outcome := rejected |};
                esSearch := fun _ _ _ => Some ([page_of "a" "A"; page_of "b" "B"], 2);
                rankService := {| latency := 40; outcome := rejected |};
                overviewService := {| latency := 40; outcome := rejected |};
                esAggregation := fun _ => None |} in
  exists r, (search plainDigest ext " " EmptyString None None (emptyWorld 5)).1 = Found r
            /\ resp_results r = [page_of "a" "A"; page_of "b" "B"].
Proof.
  intros ext. eexists.
  rewrite (proj2 (whitespace_query_matches_everything plainDigest ext " " None None
                    (emptyWorld 5) eq_refl eq_refl)).
  simpl. split; reflexivity.
Defined.

(** ** More on the ranker and the overview *)

Lemma pick_elem (results : list SearchResult) (idxs : list Z) (x : SearchResult) :
  x ∈ pick results idxs -> x ∈ results.
Proof.
  unfold pick. rewrite list_elem_of_omap. intros (i & _ & Hi).
  unfold at_index in Hi. destruct (i <? 0); [done |].
  by apply list_elem_of_lookup_2 in Hi.
Qed.

Lemma pick_length (results : list SearchResult) (idxs : list Z) :
  (length (pick results idxs) <= length idxs)%nat.
Proof.
  unfold pick. induction idxs as [|i idxs IH]; [done |].
  change (omap (at_index results) (i :: idxs))
    with (match at_index results i with
          | Some y => y :: omap (at_index results) idxs
          | None => omap (at_index results) idxs
          end).
  destruct (at_index results i); simpl; lia.
Qed.

(** X15.  With no usable entry in the ranking cache, whatever list of
    integers the service answers as [rankedIndices] (or no list, or no
    answer at all), the ranker returns only results it was given and never
    more of them than it was given: with integer indices it can reorder,
    repeat or drop, but not invent or grow. *)
Theorem rankResults_returns_given_results
    (md5 : string -> string) (svc : Service RankingJson) (query : string)
    (results : list SearchResult) (intent : string) (w : World)
    (Hmiss : misses rankingClass (getResultsCacheKey md5 query results) w) :
  let ranked := (rankResults md5 svc query results intent w).1 in
  (forall x, x ∈ ranked -> x ∈ results)
  /\ (length ranked <= length results)%nat.
Proof.
  intros ranked. subst ranked.
  destruct results as [|r rs]; [by split |].
  destruct (rankResults_miss md5 svc query (r :: rs) intent w) as (-> & _);
    [done | done |].
  destruct (_ && _) eqn:Hc; [| by split].
  apply andb_prop in Hc as [_ Hlen%Nat.eqb_eq]. split.
  - intros x. apply pick_elem.
  - rewrite <- Hlen. apply pick_length.
Qed.

(** X15 at two results and an answer that names the first one twice. *)
Lemma rankResults_returns_given_results_witness :
  let a := page_of "a" "A" in
  let b := page_of "b" "B" in
  let svc := {| latency := 40;
                outcome := answered (Some {| rankedIndices := Some [0; 0] |}) |} in
  (length (rankResults plainDigest svc "spm" [a; b] "search" (emptyWorld 5)).1 <= 2)%nat.
Proof.
  intros a b svc.
  refine (proj2 (rankResults_returns_given_results plainDigest svc "spm" [a; b]
                   "search" (emptyWorld 5) _)).
  intros e He. simpl in He. by rewrite lookup_empty in He.
Defined.

(** X16.  A ranking is computed once per TTL: after a call that found no
    usable entry and either was answered by the service or skipped it
    because there were more than 20 results, a second call for the same
    query and results within the 30 minutes returns the same list without
    calling the service.  For more than 20 results the service is never
    called and the list is returned as it came. *)
Theorem rankResults_twice
    (md5 : string -> string) (svc1 svc2 : Service RankingJson) (query : string)
    (results : list SearchResult) (intent : string) (d : Z) (w : World)
    (Hne : results <> [])
    (Hmiss : misses rankingClass (getResultsCacheKey md5 query results) w)
    (Hcached : outcome svc1 <> rejected \/ (20 < length results)%nat) :
  let first := rankResults md5 svc1 query results intent w in
  let second := rankResults md5 svc2 query results intent (elapse d first.2) in
  (now first.2 <> 0 -> d < CACHE_TTL.RANKING ->
     second.1 = first.1 /\ groqCalls second.2 = groqCalls first.2)
  /\ ((20 < length results)%nat ->
      first.1 = results /\ groqCalls first.2 = groqCalls w).
Proof.
  intros first second. subst second.
  destruct (rankResults_miss md5 svc1 query results intent w Hne Hmiss)
    as (Hres & Hcalls & Hentry & _).
  fold first in Hres, Hcalls, Hentry. split.
  - intros Hclock Hd.
    destruct Hentry as (e & He & Hdata & Hts).
    { destruct Hcached as [? | Hlen]; [by left |]. right. by apply Nat.leb_gt. }
    rewrite (rankResults_hit md5 svc2 query results intent (elapse d first.2) e Hne He).
    + by rewrite Hdata.
    + apply fresh_iff. rewrite Hts. simpl. split; [done | lia].
  - intros Hlen. apply Nat.leb_gt in Hlen. rewrite Hlen in Hres, Hcalls. by split.
Qed.

(** X16 at 21 results. *)
Lemma rankResults_twice_witness :
  let results := map (fun i => page_of (pretty i) "t") (seq 0 21) in
  let svc := {| latency := 40; outcome := rejected |} in
  (rankResults plainDigest svc "spm" results "search" (emptyWorld 5)).1 = results
  /\ groqCalls (rankResults plainDigest svc "spm" results "search" (emptyWorld 5)).2 = 0%nat.
Proof.
  intros results svc.
  refine (proj2 (rankResults_twice plainDigest svc svc "spm" results "search" 0
                   (emptyWorld 5) _ _ _) _).
  - discriminate.
  - intros e He. simpl in He. by rewrite lookup_empty in He.
  - right. vm_compute. lia.
  - vm_compute. lia.
Defined.

(** What [generateOverview] does when the cache gives it nothing: no entry,
    a stale entry, or an entry whose value is null. *)
Lemma generateOverview_recomputes md5 svc query top intent w :
  JS.nonEmpty query = true -> top <> [] ->
  (forall e s, overviewCache w !! getResultsCacheKey md5 query top = Some e ->
               fresh e CACHE_TTL.OVERVIEW (now w) = true -> data e <> Some s) ->
  let key := getResultsCacheKey md5 query top in
  let res := generateOverview md5 svc query top intent w in
  groqCalls res.2 = S (groqCalls w)
  /\ now res.2 = now w + latency svc
  /\ forall content, outcome svc = answered content ->
       res.1 = JS.or (JS.trim <$> content) None
       /\ overviewCache res.2 !! key
          = Some {| data := res.1; timestamp := now w + latency svc |}.
Proof.
  intros Hq Hne Hnull key res. subst res.
  unfold generateOverview, bind, getCachedOverview, bind.
  rewrite Hq. destruct top as [|r rs]; [done |].
  change (negb true || (length (r :: rs) =? 0)%nat) with false. cbv beta iota.
  rewrite getCached_unfold. fold key. simpl cmap. simpl ttl.
  destruct (overviewCache w !! key) as [e|] eqn:He.
  1: destruct (fresh e CACHE_TTL.OVERVIEW (now w)) eqn:Hf.
  1: destruct (data e) as [s|] eqn:Hd; [by destruct (Hnull e s He Hf) |].
  all: unfold ret, callGroq; simpl.
  all: destruct (outcome svc) as [|content]; simpl.
  all: split; [done |]; split; [done |]; intros c [=]; subst.
  all: split; [done |]; by rewrite lookup_insert_eq.
Qed.

(** X17.  A non-blank overview text is computed once per TTL: it is
    returned trimmed, cached, and a second call within the hour returns it
    without calling the service.  A null overview (the content is missing
    or blank) is cached too but never served: as long as the entry of the
    key holds null, every call for it calls the service again. *)
Theorem generateOverview_caches_text_only
    (md5 : string -> string) (svc1 svc2 : Service string) (query : string)
    (top : list SearchResult) (intent : string) (d : Z) (w : World)
    (content : option string)
    (Hquery : JS.nonEmpty query = true) (Htop : top <> [])
    (Hmiss : misses overviewClass (getResultsCacheKey md5 query top) w)
    (Hans : outcome svc1 = answered content) :
  let first := generateOverview md5 svc1 query top intent w in
  let second := generateOverview md5 svc2 query top intent (elapse d first.2) in
  first.1 = JS.or (JS.trim <$> content) None
  /\ (forall text, first.1 = Some text ->
        now w + latency svc1 <> 0 -> d < CACHE_TTL.OVERVIEW ->
        second.1 = Some text /\ groqCalls second.2 = S (groqCalls w))
  /\ (first.1 = None ->
      (exists e, overviewCache first.2 !! getResultsCacheKey md5 query top = Some e
                 /\ data e = None)
      /\ groqCalls second.2 = S (S (groqCalls w))).
Proof.
  intros first second. subst second.
  destruct (generateOverview_recomputes md5 svc1 query top intent w Hquery Htop)
    as (Hcalls & Hnow & Hans').
  { intros e s He Hf. pose proof (Hmiss e He) as Hst. simpl in Hst. congruence. }
  destruct (Hans' content Hans) as [Hres Hentry]. fold first in Hres, Hentry, Hcalls, Hnow.
  split; [exact Hres |]. split.
  - intros text Htext Hclock Hd.
    rewrite (generateOverview_hit md5 svc2 query top intent (elapse d first.2) _ text
               Hquery Htop Hentry).
    + simpl. by rewrite Hcalls.
    + apply fresh_iff. simpl. rewrite Hnow. split; [done | lia].
    + done.
  - intros Hnone. split; [eexists; split; [exact Hentry | done] |].
    destruct (generateOverview_recomputes md5 svc2 query top intent (elapse d first.2)
                Hquery Htop) as (Hcalls2 & _).
    + intros e s He _. simpl in He. rewrite Hentry in He. injection He as <-.
      simpl. by rewrite Hnone.
    + rewrite Hcalls2. simpl. by rewrite Hcalls.
Qed.

(** X17 at an answer that is white space only. *)
Lemma generateOverview_caches_text_only_witness :
  let top := [page_of "a" "A"] in
  let svc := {| latency := 40; outcome := answered (Some "  ") |} in
  let first := generateOverview plainDigest svc "spm" top "search" (emptyWorld 5) in
  let second := generateOverview plainDigest svc "spm" top "search" (elapse 1000 first.2) in
  first.1 = None /\ groqCalls second.2 = 2%nat.
Proof.
  intros top svc first second.
  assert (Hm : misses overviewClass (getResultsCacheKey plainDigest "spm" top)
                 (emptyWorld 5)).
  { intros e He. simpl in He. by rewrite lookup_empty in He. }
  destruct (generateOverview_caches_text_only plainDigest svc svc "spm" top "search"
              1000 (emptyWorld 5) (Some "  ") eq_refl ltac:(discriminate) Hm eq_refl)
    as (H1 & _ & H3).
  split; [exact H1 |]. exact (proj2 (H3 H1)).
Defined.

(** ** The keywords of the fallback record *)

Lemma append_snoc (cur : string) (c : ascii) (k : string) :
  (cur +:+ String c EmptyString) +:+ k = cur +:+ String c k.
Proof.
  induction cur as [|b cur IH]; [done |].
  change (String b ((cur +:+ String c EmptyString) +:+ k) = String b (cur +:+ String c k)).
  by rewrite IH.
Qed.

Lemma words_go_spec (s cur : string) :
  anyChar JS.isWhiteSpace cur = false ->
  Forall (fun k => k <> EmptyString /\ anyChar JS.isWhiteSpace k = false) (words_go s cur)
  /\ foldr String.append EmptyString (words_go s cur)
     = cur +:+ keepChars (fun c => negb (JS.isWhiteSpace c)) s.
Proof.
  revert cur. induction s as [|c s IH]; intros cur Hcur; simpl.
  - destruct cur as [|a cur]; [by split |]. split.
    + apply Forall_singleton. by split.
    + reflexivity.
  - destruct (JS.isWhiteSpace c) eqn:Hc; simpl.
    + destruct (IH EmptyString eq_refl) as [Hall Hcat].
      destruct cur as [|a cur]; [by split |]. split.
      * apply Forall_cons. by split.
      * simpl. simpl in Hcat. by rewrite Hcat.
    + destruct (IH (cur +:+ String c EmptyString)) as [Hall Hcat].
      { rewrite anyChar_app. simpl. by rewrite Hcur, Hc. }
      split; [exact Hall |]. rewrite Hcat. apply append_snoc.
Qed.

(** X18.  The keywords of the fallback record split the query at its white
    space and lose nothing else: each keyword is non-empty and free of white
    space, and the keywords put end to end are the query with its white
    space removed.  So a query of white space only has no keywords. *)
Theorem fallback_keywords_partition_the_query (query : string) :
  let ks := keywords (fallbackUnderstanding query) in
  Forall (fun k => k <> EmptyString /\ anyChar JS.isWhiteSpace k = false) ks
  /\ foldr String.append EmptyString ks
     = keepChars (fun c => negb (JS.isWhiteSpace c)) query
  /\ (keepChars (fun c => negb (JS.isWhiteSpace c)) query = EmptyString -> ks = []).
Proof.
  intros ks. subst ks. rewrite fallback_keywords.
  destruct (words_go_spec query EmptyString eq_refl) as [Hall Hcat].
  fold (words query) in Hall, Hcat. split; [exact Hall |]. split; [exact Hcat |].
  intros Hnone. simpl in Hcat. rewrite Hnone in Hcat.
  destruct (words query) as [|k ks]; [done |].
  apply Forall_cons in Hall as [[Hk _] _]. simpl in Hcat.
  destruct k; [done | discriminate Hcat].
Qed.

(** X18 at the query of tabs and spaces. *)
Lemma fallback_keywords_partition_the_query_witness :
  keywords (fallbackUnderstanding "  ") = []
  /\ keywords (fallbackUnderstanding " clinical   data ") = ["clinical"; "data"].
Proof.
  split; [| reflexivity].
  exact (proj2 (proj2 (fallback_keywords_partition_the_query "  ")) eq_refl).
Defined.

(** ** Each stage keeps to its own cache *)

Lemma understandQuery_rankingCache md5 svc query w :
  rankingCache (understandQuery md5 svc query w).2 = rankingCache w.
Proof.
  unfold understandQuery, bind, getCachedUnderstanding.
  destruct (isBlank query); [done |]. rewrite getCached_unfold. simpl.
  unfold callGroq. repeat case_match; simplify_eq; done.
Qed.

Lemma rankResults_understandQueryCache md5 svc query results intent w :
  understandQueryCache (rankResults md5 svc query results intent w).2
  = understandQueryCache w.
Proof.
  unfold rankResults, bind, getCachedRanking.
  destruct (length results =? 0)%nat; [done |]. rewrite getCached_unfold. simpl.
  unfold callGroq. repeat case_match; simplify_eq; done.
Qed.

Lemma generateOverview_other_caches md5 svc query top intent w :
  understandQueryCache (generateOverview md5 svc query top intent w).2
  = understandQueryCache w
  /\ rankingCache (generateOverview md5 svc query top intent w).2 = rankingCache w.
Proof.
  unfold generateOverview, bind, getCachedOverview, bind.
  destruct (negb (JS.nonEmpty query) || (length top =? 0)%nat); [done |].
  rewrite getCached_unfold. simpl.
  unfold callGroq, ret. repeat case_match; simplify_eq; done.
Qed.

(** X19.  Each stage reads and writes its own cache only: understanding a
    query leaves the overview and ranking caches as they were, ranking
    leaves the understanding and overview caches, and the overview leaves
    the understanding and ranking caches; and a whole request to
    [GET /search] for a page other than 1 leaves the overview cache as it
    was. *)
Theorem stages_keep_to_their_cache
    (md5 : string -> string) (query : string) (results : list SearchResult)
    (intent : string) (w : World) :
  (forall svc, let w' := (understandQuery md5 svc query w).2 in
     overviewCache w' = overviewCache w /\ rankingCache w' = rankingCache w)
  /\ (forall svc, let w' := (rankResults md5 svc query results intent w).2 in
        understandQueryCache w' = understandQueryCache w
        /\ overviewCache w' = overviewCache w)
  /\ (forall svc, let w' := (generateOverview md5 svc query results intent w).2 in
        understandQueryCache w' = understandQueryCache w
        /\ rankingCache w' = rankingCache w).
Proof.
  split; [| split]; intros svc w'; subst w'.
  - split; [apply understandQuery_overviewCache | apply understandQuery_rankingCache].
  - split; [apply rankResults_understandQueryCache | apply rankResults_overviewCache].
  - apply generateOverview_other_caches.
Qed.

(** ** The pagination cache of the results page *)

Lemma startsWith_app (s t : string) : startsWith s (s +:+ t) = true.
Proof.
  induction s as [|c s IH]; [done |].
  change (Ascii.eqb c c && startsWith s (s +:+ t) = true).
  by rewrite Ascii.eqb_refl, IH.
Qed.

Lemma append_assoc (s t u : string) : (s +:+ t) +:+ u = s +:+ (t +:+ u).
Proof.
  induction s as [|c s IH]; [done |].
  change (String c ((s +:+ t) +:+ u) = String c (s +:+ (t +:+ u))). by rewrite IH.
Qed.

Lemma append_inj_r (s t u : string) : s +:+ t = s +:+ u -> t = u.
Proof.
  induction s as [|c s IH]; [done |].
  change (String c (s +:+ t) = String c (s +:+ u) -> t = u).
  intros [= H]. by apply IH.
Qed.

Lemma getCacheKey_page_inj (query categ : string) (p p' : Z) :
  getCacheKey query categ p = getCacheKey query categ p' -> p = p'.
Proof.
  unfold getCacheKey. intros H.
  do 4 apply append_inj_r in H. by apply (inj pretty) in H.
Qed.

Lemma getCachedResults_unfold (query categ : string) (page : Z) (b : Browser) :
  (getCachedResults query categ page b).1 =
  match pageCache b !! getCacheKey query categ page with
  | Some e => if clientValid e (clientNow b) then Some e else None
  | None => None
  end.
Proof.
  unfold getCachedResults. destruct (pageCache b !! _) as [e|]; [| done].
  by destruct (clientValid e (clientNow b)).
Qed.

(** X20.  A page stored in the pagination cache is read back, with the time
    it was stored, under the same query, category and page for less than 5
    minutes; from 5 minutes on the read is a miss and removes the entry.
    The key ignores the case of the query and the white space around it.
    Storing one page does not change what is read for another page of the
    same query and category. *)
Theorem pagination_cache_round_trip
    (query categ : string) (page page' : Z) (d0 : PageData) (d : Z) (b : Browser) :
  let b1 := later d (cacheResults query categ page d0 b) in
  (getCachedResults query categ page b1).1
    = (if d <? CLIENT_CACHE_TTL
       then Some {| data := d0; timestamp := clientNow b |} else None)
  /\ (CLIENT_CACHE_TTL <= d ->
      pageCache (getCachedResults query categ page b1).2
        !! getCacheKey query categ page = None)
  /\ getCacheKey (JS.toLowerCase query) categ page = getCacheKey query categ page
  /\ getCacheKey (JS.trim query) categ page = getCacheKey query categ page
  /\ (page' <> page ->
      (getCachedResults query categ page' b1).1
      = (getCachedResults query categ page' (later d b)).1).
Proof.
  intros b1.
  assert (He : pageCache b1 !! getCacheKey query categ page
               = Some {| data := d0; timestamp := clientNow b |})
    by apply lookup_insert_eq.
  assert (Hv : clientValid {| data := d0; timestamp := clientNow b |} (clientNow b1)
               = (d <? CLIENT_CACHE_TTL)).
  { unfold clientValid. simpl. by replace (clientNow b + d - clientNow b) with d by lia. }
  split. { rewrite getCachedResults_unfold, He, Hv. by destruct (d <? CLIENT_CACHE_TTL). }
  split.
  { intros Hd. unfold getCachedResults. rewrite He, Hv.
    destruct (Z.ltb_spec d CLIENT_CACHE_TTL); [lia |]. simpl. apply lookup_delete_eq. }
  split. { unfold getCacheKey. by rewrite toLowerCase_idemp. }
  split. { unfold getCacheKey. by rewrite toLowerCase_trim, trim_idemp. }
  intros Hp. rewrite !getCachedResults_unfold. subst b1. simpl.
  rewrite lookup_insert_ne; [done |].
  intros Hk. apply getCacheKey_page_inj in Hk. done.
Qed.

(** X20 at page 1 and page 2 of the query ["spm"]. *)
Lemma pagination_cache_round_trip_witness :
  let d0 := {| pd_results := []; pd_total := 0; pd_categoryCounts := ∅;
               pd_totalPages := 0; pd_overview := None; pd_didYouMean := None;
               pd_intent := None |} in
  let b := {| pageCache := ∅; clientNow := 0 |} in
  (getCachedResults "SPM " "" 1 (later 1000 (cacheResults "spm" "" 1 d0 b))).1
    = Some {| data := d0; timestamp := 0 |}
  /\ (getCachedResults "spm" "" 2 (later 1000 (cacheResults "spm" "" 1 d0 b))).1 = None.
Proof.
  intros d0 b.
  destruct (pagination_cache_round_trip "spm" "" 1 2 d0 1000 b)
    as (H1 & _ & _ & _ & H5).
  split; [exact H1 |]. rewrite (H5 ltac:(discriminate)). reflexivity.
Defined.

(** X21.  Clearing the pagination cache for a query removes exactly the
    entries whose key starts with the normalized query followed by a bar:
    afterwards no page of any category of that query (in any case or
    padding) is read from the cache, and every other entry is still there
    unchanged. *)
Theorem clearCacheForQuery_removes_the_query (query : string) (b : Browser) :
  let prefix := JS.trim (JS.toLowerCase query) +:+ "|" in
  let b' := clearCacheForQuery query b in
  (forall k e, pageCache b' !! k = Some e <->
     pageCache b !! k = Some e /\ startsWith prefix k = false)
  /\ (forall q categ page,
        JS.trim (JS.toLowerCase q) = JS.trim (JS.toLowerCase query) ->
        getCachedResults q categ page b' = (None, b'))
  /\ clientNow b' = clientNow b.
Proof.
  intros prefix b'. split; [| split; [| done]].
  - intros k e. subst b'. unfold clearCacheForQuery. simpl.
    apply map_lookup_filter_Some.
  - intros q categ page Hn. unfold getCachedResults.
    destruct (pageCache b' !! getCacheKey q categ page) as [e|] eqn:He; [| done].
    subst b'. unfold clearCacheForQuery in He. simpl in He.
    apply map_lookup_filter_Some in He as [_ Hs]. simpl in Hs.
    unfold getCacheKey in Hs. rewrite Hn, <- append_assoc, startsWith_app in Hs.
    discriminate Hs.
Qed.

(** X21 at a cache holding a page of ["spm"] and a page of ["cdm"]. *)
Lemma clearCacheForQuery_removes_the_query_witness :
  let d0 := {| pd_results := []; pd_total := 0; pd_categoryCounts := ∅;
               pd_totalPages := 0; pd_overview := None; pd_didYouMean := None;
               pd_intent := None |} in
  let b := cacheResults "cdm" "" 1 d0
             (cacheResults "spm" "blogs" 2 d0 {| pageCache := ∅; clientNow := 7 |}) in
  (getCachedResults "SPM" "blogs" 2 (clearCacheForQuery "spm" b)).1 = None
  /\ pageCache (clearCacheForQuery "spm" b) !! getCacheKey "cdm" "" 1
     = Some {| data := d0; timestamp := 7 |}.
Proof.
  intros d0 b. split.
  - by rewrite (proj1 (proj2 (clearCacheForQuery_removes_the_query "spm" b))
                  "SPM" "blogs" 2 eq_refl).
  - apply (proj1 (clearCacheForQuery_removes_the_query "spm" b)). by vm_compute.
Defined.

(** ** The API key *)

Lemma trimEnd_snoc (s : string) (c : ascii) :
  JS.isWhiteSpace c = false ->
  JS.trimEnd (s +:+ String c EmptyString) = s +:+ String c EmptyString.
Proof.
  intros Hc. induction s as [|a s IH].
  - simpl. by rewrite Hc.
  - change (JS.trimEnd (String a (s +:+ String c EmptyString))
            = String a (s +:+ String c EmptyString)).
    simpl. rewrite IH. by destruct s.
Qed.

Lemma dropLastQuote_snoc (s : string) (c : ascii) :
  isQuote c = true -> dropLastQuote (s +:+ String c EmptyString) = s.
Proof.
  intros Hc. induction s as [|a s IH].
  - simpl. by rewrite Hc.
  - change (dropLastQuote (String a (s +:+ String c EmptyString)) = String a s).
    simpl. rewrite IH. by destruct s.
Qed.

Lemma isQuote_not_space (c : ascii) : isQuote c = true -> JS.isWhiteSpace c = false.
Proof. destruct c as [[] [] [] [] [] [] [] []]; by vm_compute. Qed.

Lemma trimStart_spaces (pad s : string) :
  anyChar (fun c => negb (JS.isWhiteSpace c)) pad = false ->
  JS.trimStart (pad +:+ s) = JS.trimStart s.
Proof.
  induction pad as [|c pad IH]; [done |].
  change (negb (JS.isWhiteSpace c) || anyChar (fun c => negb (JS.isWhiteSpace c)) pad = false
          -> JS.trimStart (String c (pad +:+ s)) = JS.trimStart s).
  intros [Hc Hp]%orb_false_elim. apply negb_false_iff in Hc. simpl. rewrite Hc.
  by apply IH.
Qed.

Lemma trimEnd_spaces (s pad : string) :
  anyChar (fun c => negb (JS.isWhiteSpace c)) pad = false ->
  JS.trimEnd (s +:+ pad) = JS.trimEnd s.
Proof.
  intros Hp.
  assert (Hpad : JS.trimEnd pad = EmptyString).
  { induction pad as [|c pad IH]; [done |]. simpl in Hp.
    apply orb_false_elim in Hp as [Hc Hp]. apply negb_false_iff in Hc.
    simpl. by rewrite (IH Hp), Hc. }
  induction s as [|a s IH]; [exact Hpad |].
  change (JS.trimEnd (String a (s +:+ pad)) = JS.trimEnd (String a s)).
  simpl. by rewrite IH.
Qed.

(** X22.  A key written between quotes, with white space around the quotes
    or not, is read without the quotes and trimmed: exactly one quote is
    taken off each end, so quotes that belong to the key survive.  The
    cleaned key never starts or ends with white space (trimming it again
    changes nothing), and a missing key is the empty key. *)
Theorem getCleanApiKey_unquotes
    (before after key : string) (q1 q2 : ascii)
    (Hq1 : isQuote q1 = true) (Hq2 : isQuote q2 = true)
    (Hbefore : anyChar (fun c => negb (JS.isWhiteSpace c)) before = false)
    (Hafter : anyChar (fun c => negb (JS.isWhiteSpace c)) after = false) :
  getCleanApiKey (before +:+ String q1 (key +:+ String q2 EmptyString) +:+ after)
  = JS.trim key
  /\ (forall raw, JS.trim (getCleanApiKey raw) = getCleanApiKey raw)
  /\ getCleanApiKey EmptyString = EmptyString.
Proof.
  split; [| split; [| done]].
  - unfold getCleanApiKey.
    assert (Hne : JS.nonEmpty (before +:+ String q1 (key +:+ String q2 EmptyString) +:+ after)
                  = true) by by destruct before.
    rewrite Hne. simpl negb. cbv iota. f_equal.
    unfold JS.trim. rewrite trimStart_spaces by done.
    change (String q1 (key +:+ String q2 EmptyString) +:+ after)
      with (String q1 ((key +:+ String q2 EmptyString) +:+ after)).
    simpl JS.trimStart. rewrite (isQuote_not_space q1 Hq1).
    change (String q1 ((key +:+ String q2 EmptyString) +:+ after))
      with ((String q1 (key +:+ String q2 EmptyString)) +:+ after).
    rewrite trimEnd_spaces by done.
    change (String q1 (key +:+ String q2 EmptyString))
      with ((String q1 key) +:+ String q2 EmptyString).
    rewrite trimEnd_snoc by by apply isQuote_not_space.
    change ((String q1 key) +:+ String q2 EmptyString)
      with (String q1 (key +:+ String q2 EmptyString)).
    simpl stripQuotes. rewrite Hq1. by apply dropLastQuote_snoc.
  - intros raw. unfold getCleanApiKey. destruct (negb (JS.nonEmpty raw)); [done |].
    apply trim_idemp.
Qed.

(** X22 at a key between double quotes with a trailing line break. *)
Lemma getCleanApiKey_unquotes_witness :
  getCleanApiKey (String "034" ("abc123" +:+ String "034" EmptyString)
                  +:+ String "010" EmptyString) = "abc123".
Proof.
  exact (proj1 (getCleanApiKey_unquotes EmptyString (String "010" EmptyString) "abc123"
                  "034" "034" eq_refl eq_refl eq_refl eq_refl)).
Defined.

(** X23 at two results and the answer [[1, 0]]. *)
Lemma rankResults_fallback_and_valid_answer_witness :
  let a := page_of "a" "A" in
  let b := page_of "b" "B" in
  let svc := {| latency := 40;
                outcome := answered (Some {| rankedIndices := Some [1; 0] |}) |} in
  (rankResults plainDigest svc "spm" [a; b] "search" (emptyWorld 5)).1 ≡ₚ [a; b].
Proof.
  intros a b svc.
  refine (proj2 (proj2 (proj2 (rankResults_fallback_and_valid_answer plainDigest svc
            "spm" [a; b] "search" (emptyWorld 5) _ _))) [1; 0] eq_refl _).
  - discriminate.
  - intros e He. simpl in He. by rewrite lookup_empty in He.
  - simpl. apply perm_swap.
Defined.
